(** * test-kimi-py.py: a shallow embedding and its specification

    The script loads [.env] into the process environment, resolves the
    credential [NVIDIA_API_KEY_KIMI], sends one chat-completion request
    and prints the answer.  It is embedded here as a computation in a
    small monad that threads the process state (the environment and the
    trace of what was printed and posted) and distinguishes normal
    return, a raised [Exception] and [sys.exit].

    Everything outside the script (the file system, the HTTP endpoint,
    the interpreter's rendering of objects) is a field of [world]. *)

From Stdlib Require Import ZArith NArith String Ascii List Floats.
From Stdlib Require Import DecimalString.
From stdpp Require Import gmap list strings.

Local Open Scope N_scope.

(** ** Text and bytes *)

(** A Python [str] is a sequence of Unicode code points; a [bytes] object
    is a sequence of bytes. *)
Abbreviation str := (list N).
Abbreviation bytes := (list Byte.byte).

(** The code points of a literal whose characters are all ASCII. *)
Definition lit (s : string) : str :=
  map N_of_ascii (list_ascii_of_string s).

(** The bytes of an ASCII literal ([b"..."]). *)
Definition blit (s : string) : bytes :=
  map byte_of_ascii (list_ascii_of_string s).

Definition LF : N := 10.
Definition CR : N := 13.
Definition NUL : N := 0.
Definition DQUOTE : N := 34.
Definition HASH : N := 35.
Definition EQUALS : N := 61.

(** [str.isspace] on one code point (CPython's [_PyUnicode_IsWhitespace]). *)
Definition isspace (c : N) : bool :=
  ((9 <=? c) && (c <=? 13)) || ((28 <=? c) && (c <=? 32))
  || (c =? 133) || (c =? 160) || (c =? 5760)
  || ((8192 <=? c) && (c <=? 8202))
  || (c =? 8232) || (c =? 8233) || (c =? 8239) || (c =? 8287)
  || (c =? 12288).

Fixpoint lstrip (s : str) : str :=
  match s with
  | [] => []
  | c :: s' => if isspace c then lstrip s' else s
  end.

Definition rstrip (s : str) : str := rev (lstrip (rev s)).

(** [s.strip()] *)
Definition strip (s : str) : str := rstrip (lstrip s).

(** [s.startswith(c)] for a one-character prefix. *)
Definition startswith (c : N) (s : str) : bool :=
  match s with
  | [] => false
  | x :: _ => x =? c
  end.

(** [c in s] for a one-character needle. *)
Fixpoint contains (c : N) (s : str) : bool :=
  match s with
  | [] => false
  | x :: s' => (x =? c) || contains c s'
  end.

(** [s.partition(c)] restricted to the case where [c] occurs. *)
Fixpoint cut (c : N) (s : str) : option (str * str) :=
  match s with
  | [] => None
  | x :: s' =>
      if x =? c then Some ([], s')
      else match cut c s' with
           | Some (a, b) => Some (x :: a, b)
           | None => None
           end
  end.

(** [s.split(c, 1)]: at most one split, at the first occurrence. *)
Definition split1 (c : N) (s : str) : list str :=
  match cut c s with
  | Some (a, b) => [a; b]
  | None => [s]
  end.

(** Truth value of a string or bytes object: non-empty. *)
Definition truthy {A} (s : list A) : bool :=
  match s with [] => false | _ => true end.

(** Lines as text-mode iteration over a file yields them: each of
    ["\n"], ["\r"], ["\r\n"] ends a line and is handed over as ["\n"];
    a last line without terminator is yielded as it is. *)
Fixpoint readlines_from (cur : str) (s : str) : list str :=
  match s with
  | [] => match cur with [] => [] | _ => [rev cur] end
  | c :: s' =>
      if c =? LF then rev (LF :: cur) :: readlines_from [] s'
      else if c =? CR then
        match s' with
        | c' :: s'' =>
            if c' =? LF then rev (LF :: cur) :: readlines_from [] s''
            else rev (LF :: cur) :: readlines_from [] s'
        | [] => [rev (LF :: cur)]
        end
      else readlines_from (c :: cur) s'
  end.

Definition readlines (text : str) : list str := readlines_from [] text.

(** [b.decode("utf-8")] on the byte values, strict: shortest forms only,
    no surrogates, nothing above U+10FFFF.  [None] stands for the
    [UnicodeDecodeError]. *)
Definition is_cont (b : N) : bool := (128 <=? b) && (b <=? 191).

Definition in_range (lo hi b : N) : bool := (lo <=? b) && (b <=? hi).

Fixpoint utf8_decode (bs : list N) : option str :=
  match bs with
  | [] => Some []
  | b0 :: r0 =>
      if b0 <? 128 then cons b0 <$> utf8_decode r0
      else if in_range 194 223 b0 then
        match r0 with
        | b1 :: r1 =>
            if is_cont b1
            then cons ((b0 - 192) * 64 + (b1 - 128)) <$> utf8_decode r1
            else None
        | _ => None
        end
      else if in_range 224 239 b0 then
        match r0 with
        | b1 :: b2 :: r2 =>
            if in_range (if b0 =? 224 then 160 else 128)
                        (if b0 =? 237 then 159 else 191) b1
               && is_cont b2
            then cons ((b0 - 224) * 4096 + (b1 - 128) * 64 + (b2 - 128))
                   <$> utf8_decode r2
            else None
        | _ => None
        end
      else if in_range 240 244 b0 then
        match r0 with
        | b1 :: b2 :: b3 :: r3 =>
            if in_range (if b0 =? 240 then 144 else 128)
                        (if b0 =? 244 then 143 else 191) b1
               && is_cont b2 && is_cont b3
            then cons ((b0 - 240) * 262144 + (b1 - 128) * 4096
                       + (b2 - 128) * 64 + (b3 - 128))
                   <$> utf8_decode r3
            else None
        | _ => None
        end
      else None
  end.

Definition decode (b : bytes) : option str :=
  utf8_decode (map Byte.to_N b).

(** [str(n)] for an integer. *)
Definition str_of_Z (z : Z) : str :=
  lit (NilZero.string_of_int (Z.to_int z)).

(** ** Values, exceptions and the outside world *)

(** The objects the script builds for the JSON payload and receives from
    [response.json()]. A [dict] keeps its items in insertion order. *)
#[warnings="-register-all"]
Inductive pyval : Type :=
| PNone
| PBool (b : bool)
| PInt (z : Z)
| PFloat (f : float)
| PStr (s : str)
| PList (l : list pyval)
| PDict (items : list (str * pyval)).

(** An instance of [Exception]: its class and [str(e)].  What
    [except Exception] does not catch ([KeyboardInterrupt] and the like)
    is outside the model, but for [SystemExit], see [result]. *)
Record exn := Exn { exn_class : string; exn_text : str }.

(** An iterable consumed by a [for] loop: it yields [items] and then
    either stops or raises. *)
Record iterator (A : Type) := Iterator {
  items : list A;
  failure : option exn
}.
Arguments Iterator {A} _ _.
Arguments items {A} _.
Arguments failure {A} _.

Record request := Request {
  req_url : str;
  req_headers : gmap str str;
  req_json : pyval;
  req_stream : bool;
  req_timeout : Z
}.

Record response := Response {
  status_code : Z;
  reason : str;
  url : str;
  content : bytes;                  (* the whole body, [response.content] *)
  iter_lines : iterator bytes       (* what [response.iter_lines()] yields *)
}.

Record world := World {
  (* [open(".env", "r")] and the iteration over the file's lines *)
  open_dotenv : exn + iterator str;
  (* [requests.post]: an exception (connection error, timeout) or the
     response whose headers have arrived *)
  http_post : request -> exn + response;
  (* the JSON decoder behind [response.json()], applied to the body *)
  json_loads : bytes -> exn + pyval;
  (* [str(obj)] as [print] applies it to a parsed JSON structure *)
  py_str : pyval -> str;
  (* [str(e)] of the [UnicodeDecodeError] for an undecodable line *)
  utf8_error_text : bytes -> str
}.

(** A file that opens and reads without error. *)
Definition file_of_text (text : str) : exn + iterator str :=
  inr (Iterator (readlines text) None).

(** ** Process state and the monad of the script *)

Inductive event : Type :=
| Print (s : str)          (* [print(s)]: [s] and a newline on stdout *)
| Post (r : request).      (* a request handed to [requests.post] *)

Record state := State {
  environ : gmap str str;  (* [os.environ] *)
  trace : list event       (* what happened so far, oldest first *)
}.

Inductive result (A : Type) : Type :=
| Ok (a : A)               (* normal completion *)
| Raised (e : exn)         (* an [Exception] is propagating *)
| Exited (code : Z).       (* [SystemExit] is propagating *)
Arguments Ok {A} _.
Arguments Raised {A} _.
Arguments Exited {A} _.

Definition M (A : Type) : Type := state -> result A * state.

Definition ret {A} (a : A) : M A := fun st => (Ok a, st).

Definition bind {A B} (m : M A) (k : A -> M B) : M B :=
  fun st =>
    match m st with
    | (Ok a, st') => k a st'
    | (Raised e, st') => (Raised e, st')
    | (Exited c, st') => (Exited c, st')
    end.

Declare Scope py_scope.
Delimit Scope py_scope with py.
Notation "x <- m ; k" := (bind m (fun x => k))
  (at level 100, m at next level, right associativity,
   format "'[v' x  <-  m ; '/' k ']'") : py_scope.
Notation "m ;; k" := (bind m (fun _ => k))
  (at level 100, right associativity,
   format "'[v' m ;; '/' k ']'") : py_scope.
Local Open Scope py_scope.

Definition raise {A} (e : exn) : M A := fun st => (Raised e, st).

(** [sys.exit(code)] *)
Definition sys_exit {A} (code : Z) : M A := fun st => (Exited code, st).

(** [try: body / except Exception as e: handler e] *)
Definition try_except {A} (body : M A) (handler : exn -> M A) : M A :=
  fun st =>
    match body st with
    | (Raised e, st') => handler e st'
    | r => r
    end.

Definition print (s : str) : M unit :=
  fun st => (Ok tt, State (environ st) (trace st ++ [Print s])).

Fixpoint for_each {A} (l : list A) (body : A -> M unit) : M unit :=
  match l with
  | [] => ret tt
  | x :: l' => body x ;; for_each l' body
  end.

(** [for x in it: body x] *)
Definition for_in {A} (it : iterator A) (body : A -> M unit) : M unit :=
  for_each (items it) body ;;
  match failure it with
  | Some e => raise e
  | None => ret tt
  end.

Definition lift {A} (r : exn + A) : M A :=
  match r with
  | inl e => raise e
  | inr a => ret a
  end.

(** [os.environ.get(key)] *)
Definition environ_get (key : str) : M (option str) :=
  fun st => (Ok (environ st !! key), st).

(** [os.environ[key] = value].  The assignment goes through [putenv],
    which refuses a name or value with a NUL and an empty name or one
    with ['=']; otherwise the variable is set, whatever it held. *)
Definition environ_setitem (key value : str) : M unit :=
  fun st =>
    if contains NUL key || contains NUL value
    then (Raised (Exn "ValueError" (lit "embedded null byte")), st)
    else if negb (truthy key) || contains EQUALS key
    then (Raised (Exn "ValueError" (lit "illegal environment variable name")), st)
    else (Ok tt, State (<[key := value]> (environ st)) (trace st)).

(** [key, value = parts] *)
Definition unpack2 (parts : list str) : M (str * str) :=
  match parts with
  | [a; b] => ret (a, b)
  | [] | [_] =>
      raise (Exn "ValueError"
               (lit "not enough values to unpack (expected 2, got "
                ++ str_of_Z (Z.of_nat (length parts)) ++ lit ")"))
  | _ => raise (Exn "ValueError" (lit "too many values to unpack (expected 2)"))
  end.

(** ** The script *)

Section Script.

Variable w : world.

(** The source fixes [stream = True]; the flag is kept as a variable so
    that both branches of the script are embedded (see [stream] and
    [main] below). *)
Variable stream : bool.

(** The body of the loop over the lines of [.env]. *)
Definition load_line (line : str) : M unit :=
  if truthy (strip line) && negb (startswith HASH line)
     && contains EQUALS line
  then
    kv <- unpack2 (split1 EQUALS (strip line));
    environ_setitem kv.1 kv.2
  else ret tt.

Definition load_dotenv : M unit :=
  try_except
    (f <- lift (open_dotenv w);
     for_in f load_line)
    (fun e => print (lit "Warning: Could not load .env: " ++ exn_text e)).

Definition invoke_url : str :=
  lit "https://integrate.api.nvidia.com/v1/chat/completions".

Definition headers (api_key : str) : gmap str str :=
  {[ lit "Authorization" := lit "Bearer " ++ api_key;
     lit "Accept" := if stream then lit "text/event-stream"
                     else lit "application/json" ]}.

Definition payload : pyval :=
  PDict
    [ (lit "model", PStr (lit "moonshotai/kimi-k2.5"));
      (lit "messages",
        PList [PDict [ (lit "role", PStr (lit "user"));
                       (lit "content", PStr (lit "Hello")) ]]);
      (lit "max_tokens", PInt 16384);
      (lit "temperature", PFloat 1.00);
      (lit "top_p", PFloat 1.00);
      (lit "stream", PBool stream);
      (lit "chat_template_kwargs",
        PDict [ (lit "thinking", PBool true) ]) ].

(** [requests.post(url, headers=..., json=..., stream=..., timeout=...)] *)
Definition requests_post (r : request) : M response :=
  fun st =>
    let st' := State (environ st) (trace st ++ [Post r]) in
    match http_post w r with
    | inl e => (Raised e, st')
    | inr resp => (Ok resp, st')
    end.

(** The [HTTPError] of the requests library, with its message. *)
Definition http_error (kind : string) (r : response) : exn :=
  Exn "HTTPError"
    (str_of_Z (status_code r) ++ lit " " ++ lit kind ++ lit " Error: "
     ++ reason r ++ lit " for url: " ++ url r).

(** [response.raise_for_status()] of the requests library: an
    [HTTPError] for the 4xx and 5xx codes, nothing otherwise. *)
Definition raise_for_status (r : response) : M unit :=
  let code := status_code r in
  if (400 <=? code)%Z && (code <? 500)%Z then raise (http_error "Client" r)
  else if (500 <=? code)%Z && (code <? 600)%Z then raise (http_error "Server" r)
  else ret tt.

(** [response.json()] *)
Definition response_json (r : response) : M pyval :=
  lift (json_loads w (content r)).

(** [line.decode("utf-8")] *)
Definition decode_line (line : bytes) : M str :=
  match decode line with
  | Some s => ret s
  | None => raise (Exn "UnicodeDecodeError" (utf8_error_text w line))
  end.

(** The body of the loop over [response.iter_lines()]. *)
Definition render_line (line : bytes) : M unit :=
  if truthy line then
    decoded <- decode_line line;
    print decoded
  else ret tt.

(** The arguments of the call of [requests.post]. *)
Definition post_request (api_key : str) : request :=
  Request invoke_url (headers api_key) payload stream 30.

(** The body of the [try] around the request. *)
Definition request_and_render (api_key : str) : M unit :=
  response <- requests_post (post_request api_key);
  raise_for_status response ;;
  if stream then for_in (iter_lines response) render_line
  else
    parsed <- response_json response;
    print (py_str w parsed).

Definition banner (api_key : str) : str :=
  lit "Testing Kimi with Python requests (Key: "
  ++ take 10%nat api_key ++ lit "...)...".

(** Everything after the loading of [.env]: the credential check, the
    request and the rendering of the response. *)
Definition resolve_and_request : M unit :=
  api_key <- environ_get (lit "NVIDIA_API_KEY_KIMI");
  match api_key with
  | None | Some [] =>
      print (lit "Error: Missing NVIDIA_API_KEY_KIMI in .env") ;;
      sys_exit 1
  | Some api_key =>
      print (banner api_key) ;;
      try_except (request_and_render api_key)
        (fun e => print (lit "Error: " ++ exn_text e))
  end.

Definition script : M unit :=
  load_dotenv ;;
  resolve_and_request.

(** What an observer sees of one run. *)
Record outcome := Outcome {
  events : list event;
  exit_status : Z;
  final_environ : gmap str str
}.

(** Run the script in a fresh process whose environment is [env]. An
    exception that reaches the top level ends the process with
    status 1. *)
Definition run (env : gmap str str) : outcome :=
  let '(r, st) := script (State env []) in
  Outcome (trace st)
    (match r with
     | Ok _ => 0
     | Raised _ => 1
     | Exited code => code
     end)
    (environ st).

End Script.

(** The flag as the source sets it, and the program as it is run. *)
Definition stream : bool := true.

Definition main (w : world) (env : gmap str str) : outcome := run w stream env.

(** ** Observations on a run *)

(** The process state when the loading of [.env] is over. *)
Definition loaded (w : world) (env : gmap str str) : state :=
  (load_dotenv w (State env [])).2.

(** The credential as the script resolves it after the loading step:
    [None] when the variable is unset. *)
Definition credential (w : world) (env : gmap str str) : option str :=
  environ (loaded w env) !! lit "NVIDIA_API_KEY_KIMI".

(** The requests dispatched during a run, in order. *)
Definition posts (evs : list event) : list request :=
  omap (fun ev => match ev with Post r => Some r | Print _ => None end) evs.

(** The lines printed during a run, in order. *)
Definition printed (evs : list event) : list str :=
  omap (fun ev => match ev with Print s => Some s | Post _ => None end) evs.

(** The text on standard output at the moment the first request is
    dispatched: every [print] writes its argument and a newline. *)
Fixpoint stdout_before_post (evs : list event) : str :=
  match evs with
  | [] => []
  | Print s :: evs' => s ++ LF :: stdout_before_post evs'
  | Post _ :: _ => []
  end.

(** The statuses that [raise_for_status] reports ([Response.ok] is
    false): client and server errors. *)
Definition http_error_status (code : Z) : bool :=
  (400 <=? code)%Z && (code <? 600)%Z.

(** The successful statuses of HTTP: the 2xx class. *)
Definition success_status (code : Z) : bool :=
  (200 <=? code)%Z && (code <? 300)%Z.

(** The [HTTPError] raised for a response with such a status. *)
Definition status_error (r : response) : exn :=
  http_error (if (status_code r <? 500)%Z then "Client" else "Server") r.

(** The lines the streaming loop prints for the lines [ls] it receives:
    the non-empty ones, decoded. [None] when one of them is not UTF-8. *)
Definition decoded_lines (ls : list bytes) : option (list str) :=
  mapM decode (List.filter truthy ls).

(** [d.get(key)] for a [dict] [d]. *)
Definition dict_get (key : str) (d : pyval) : option pyval :=
  match d with
  | PDict items => snd <$> List.find (fun kv => bool_decide (kv.1 = key)) items
  | _ => None
  end.

(** The ways in which the request or the rendering of its response
    fails, with the exception raised: the transport (connection error,
    timeout), the status, the stream or one of its lines, the JSON
    document. *)
Inductive request_error (w : world) (s : bool) (api_key : str) : exn -> Prop :=
| transport_error e :
    http_post w (post_request s api_key) = inl e ->
    request_error w s api_key e
| bad_status resp :
    http_post w (post_request s api_key) = inr resp ->
    http_error_status (status_code resp) = true ->
    request_error w s api_key (status_error resp)
| broken_stream resp e :
    s = true ->
    http_post w (post_request s api_key) = inr resp ->
    http_error_status (status_code resp) = false ->
    is_Some (decoded_lines (items (iter_lines resp))) ->
    failure (iter_lines resp) = Some e ->
    request_error w s api_key e
| undecodable_line resp before line after :
    s = true ->
    http_post w (post_request s api_key) = inr resp ->
    http_error_status (status_code resp) = false ->
    items (iter_lines resp) = before ++ line :: after ->
    is_Some (decoded_lines before) ->
    line <> [] ->
    decode line = None ->
    request_error w s api_key
      (Exn "UnicodeDecodeError" (utf8_error_text w line))
| malformed_json resp e :
    s = false ->
    http_post w (post_request s api_key) = inr resp ->
    http_error_status (status_code resp) = false ->
    json_loads w (content resp) = inl e ->
    request_error w s api_key e.

(** The credentials file cannot be opened, or it breaks off while it is
    read, with the exception [e]; [env] is the environment the process
    starts with. *)
Inductive dotenv_unreadable (w : world) (env : gmap str str) (e : exn) : Prop :=
| cannot_open :
    open_dotenv w = inl e ->
    dotenv_unreadable w env e
| cannot_read f env' :
    open_dotenv w = inr f ->
    for_each (items f) load_line (State env []) = (Ok tt, State env' []) ->
    failure f = Some e ->
    dotenv_unreadable w env e.

(** ** Mocked worlds for the examples *)

Definition SQUOTE : N := 39.

(** The byte of the double quote. *)
Definition BQUOTE : Byte.byte := Byte.x22.

Fixpoint join (sep : str) (parts : list str) : str :=
  match parts with
  | [] => []
  | [x] => x
  | x :: rest => x ++ sep ++ join sep rest
  end.

(** [str(obj)] for the structures of the examples: right for dicts,
    lists, integers, booleans, [None] and strings of printable ASCII
    without quotes or backslashes. *)
Fixpoint simple_str (v : pyval) : str :=
  match v with
  | PNone => lit "None"
  | PBool true => lit "True"
  | PBool false => lit "False"
  | PInt z => str_of_Z z
  | PFloat _ => lit "<float>"
  | PStr s => SQUOTE :: s ++ [SQUOTE]
  | PList l => lit "[" ++ join (lit ", ") (map simple_str l) ++ lit "]"
  | PDict items =>
      lit "{"
      ++ join (lit ", ")
           (map (fun kv => match kv with
                           | (k, x) => SQUOTE :: k ++ SQUOTE :: lit ": " ++ simple_str x
                           end) items)
      ++ lit "}"
  end.

(** The body [{"choices":[{"message":{"content":"hi"}}]}] and the
    structure it denotes. *)
Definition hi_body : bytes :=
  blit "{" ++ [BQUOTE] ++ blit "choices"
  ++ [BQUOTE] ++ blit ":[{"
  ++ [BQUOTE] ++ blit "message"
  ++ [BQUOTE] ++ blit ":{"
  ++ [BQUOTE] ++ blit "content"
  ++ [BQUOTE] ++ blit ":"
  ++ [BQUOTE] ++ blit "hi"
  ++ [BQUOTE] ++ blit "}}]}".

Definition hi_value : pyval :=
  PDict [ (lit "choices",
            PList [ PDict [ (lit "message",
                              PDict [ (lit "content", PStr (lit "hi")) ]) ] ]) ].

(** A JSON decoder that knows this one document. *)
Definition mock_json_loads (b : bytes) : exn + pyval :=
  if bool_decide (map Byte.to_N b = map Byte.to_N hi_body) then inr hi_value
  else inl (Exn "JSONDecodeError" (lit "Expecting value: line 1 column 1 (char 0)")).

Definition mock (file : exn + iterator str)
    (endpoint : request -> exn + response) : world :=
  World file endpoint mock_json_loads simple_str
    (fun _ => lit "'utf-8' codec can't decode bytes").

(** No [.env] in the working directory. *)
Definition no_dotenv : exn + iterator str :=
  inl (Exn "FileNotFoundError"
         (lit "[Errno 2] No such file or directory: '.env'")).

(** A [.env] holding the credential [abc123]. *)
Definition dotenv_abc123 : exn + iterator str :=
  file_of_text (lit "# credentials" ++ [LF]
                ++ lit "NVIDIA_API_KEY_KIMI=abc123" ++ [LF]).

(** An endpoint that is not reached. *)
Definition timeout_endpoint (r : request) : exn + response :=
  inl (Exn "ConnectTimeout" (lit "connection timed out")).

(** An endpoint that answers 401. *)
Definition unauthorized_endpoint (r : request) : exn + response :=
  inr (Response 401 (lit "Unauthorized") (req_url r)
         (blit "{detail: denied}")
         (Iterator [blit "{detail: denied}"] None)).

(** An endpoint that answers 300 with a list of alternatives and no
    [Location] to follow. *)
Definition choices_endpoint (r : request) : exn + response :=
  inr (Response 300 (lit "Multiple Choices") (req_url r)
         (blit "see /v2/chat/completions")
         (Iterator [blit "see /v2/chat/completions"] None)).

(** The two lines [data: {"id":1}] and [data: {"id":2}]. *)
Definition data_line (id : string) : bytes :=
  blit "data: {" ++ [BQUOTE] ++ blit "id"
  ++ [BQUOTE] ++ blit ":" ++ blit id ++ blit "}".

Definition data_text (id : string) : str :=
  lit "data: {" ++ [DQUOTE] ++ lit "id" ++ [DQUOTE] ++ lit ":" ++ lit id
  ++ lit "}".

(** A streaming endpoint that emits them, separated by a blank line, and
    closes. *)
Definition sse_endpoint (r : request) : exn + response :=
  inr (Response 200 (lit "OK") (req_url r) []
         (Iterator [data_line "1"; []; data_line "2"] None)).

(** An endpoint that answers with the document above. *)
Definition hi_endpoint (r : request) : exn + response :=
  inr (Response 200 (lit "OK") (req_url r) hi_body (Iterator [hi_body] None)).

(** A comment line that is indented, as a line of [.env]. *)
Definition indented_comment : str := [32; 32] ++ lit "#x=1" ++ [LF].

(** ** The assignments of a credentials file *)

(** The assignment a line of [.env] stands for: the key and the value
    the loop body hands to [os.environ], [None] for a line it skips. *)
Definition assignment (line : str) : option (str * str) :=
  if truthy (strip line) && negb (startswith HASH line)
     && contains EQUALS line
  then cut EQUALS (strip line)
  else None.

(** The names and values that [os.environ] takes: the name is not empty
    and neither holds a NUL. *)
Definition acceptable (kv : str * str) : bool :=
  truthy kv.1 && negb (contains NUL kv.1) && negb (contains NUL kv.2).

(** The environment after the assignments [kvs], made in order. *)
Definition assign_all (env : gmap str str) (kvs : list (str * str)) :
    gmap str str :=
  foldl (fun m kv => <[kv.1 := kv.2]> m) env kvs.

(** A Unicode scalar value: a code point up to U+10FFFF that is not a
    surrogate. *)
Definition scalar_value (c : N) : Prop :=
  c < 55296 \/ (57343 < c /\ c <= 1114111).

(** More mocked endpoints: a stream with a line that is not UTF-8, a
    stream that breaks off, a body that is not JSON. *)
Definition garbled_endpoint (r : request) : exn + response :=
  inr (Response 200 (lit "OK") (req_url r) []
         (Iterator [data_line "1"; [Byte.xff; Byte.xfe]; data_line "2"] None)).

Definition dropped_endpoint (r : request) : exn + response :=
  inr (Response 200 (lit "OK") (req_url r) []
         (Iterator [data_line "1"]
            (Some (Exn "ChunkedEncodingError" (lit "Connection broken"))))).

Definition html_endpoint (r : request) : exn + response :=
  inr (Response 200 (lit "OK") (req_url r) (blit "<html>")
         (Iterator [blit "<html>"] None)).

(** * Properties *)

(** ** Text helpers *)

Lemma contains_app (c : N) (a b : str) :
  contains c (a ++ b) = contains c a || contains c b.
Proof.
  induction a as [|x a IH]; simpl; [done|]. by rewrite IH, orb_assoc.
Qed.

Lemma contains_rev (c : N) (s : str) : contains c (rev s) = contains c s.
Proof.
  induction s as [|x s IH]; simpl; [done|].
  rewrite contains_app, IH. simpl. rewrite orb_false_r. apply orb_comm.
Qed.

Lemma contains_lstrip (c : N) (s : str) :
  isspace c = false -> contains c (lstrip s) = contains c s.
Proof.
  intros Hc. induction s as [|x s IH]; simpl; [done|].
  destruct (isspace x) eqn:Hx; [|done].
  rewrite IH. destruct (N.eqb_spec x c) as [->|]; [congruence | done].
Qed.

Lemma contains_strip (c : N) (s : str) :
  isspace c = false -> contains c (strip s) = contains c s.
Proof.
  intros Hc. unfold strip, rstrip.
  by rewrite contains_rev, contains_lstrip, contains_rev, contains_lstrip.
Qed.

Lemma cut_Some (c : N) (s a b : str) :
  cut c s = Some (a, b) <-> s = a ++ c :: b /\ contains c a = false.
Proof.
  revert a. induction s as [|x s IH]; intros a; simpl.
  - split; [discriminate|]. intros [H _]. by destruct a.
  - destruct (N.eqb_spec x c) as [->|Hne].
    + split.
      * intros [= <- <-]. done.
      * intros [H Ha]. destruct a as [|y a]; simpl in *.
        -- by inversion H.
        -- inversion H; subst. by rewrite N.eqb_refl in Ha.
    + destruct (cut c s) as [[a' b']|] eqn:Hcut.
      * split.
        -- intros [= <- <-]. destruct (proj1 (IH a') eq_refl) as [-> Ha'].
           simpl. split; [done|]. rewrite Ha'.
           by destruct (N.eqb_spec x c).
        -- intros [H Ha]. destruct a as [|y a]; simpl in *.
           ++ inversion H; subst. done.
           ++ inversion H; subst. apply orb_false_iff in Ha as [_ Ha].
              assert (Some (a', b') = Some (a, b)) as [= -> ->]
                by (by apply IH). done.
      * split; [discriminate|]. intros [H Ha].
        destruct a as [|y a]; simpl in *.
        -- inversion H; subst. done.
        -- inversion H; subst. apply orb_false_iff in Ha as [_ Ha].
           assert (None = Some (a, b)) by (by apply IH). done.
Qed.

Lemma cut_None (c : N) (s : str) : cut c s = None <-> contains c s = false.
Proof.
  induction s as [|x s IH]; simpl; [done|].
  destruct (N.eqb_spec x c) as [->|Hne]; simpl; [done|].
  destruct (cut c s) as [[a b]|]; [|tauto].
  split; [discriminate|]. intros H. apply IH in H. discriminate.
Qed.

Lemma split1_cut (c : N) (key value : str) :
  contains c key = false -> split1 c (key ++ c :: value) = [key; value].
Proof.
  intros H. unfold split1.
  by rewrite (proj2 (cut_Some c (key ++ c :: value) key value)).
Qed.

Lemma contains_cut (c : N) (s : str) :
  contains c s = true ->
  exists key value, s = key ++ c :: value /\ contains c key = false.
Proof.
  intros H. destruct (cut c s) as [[a b]|] eqn:Hcut.
  - exists a, b. by apply cut_Some.
  - apply cut_None in Hcut. congruence.
Qed.

(** ** The monad *)

Lemma try_except_Ok {A} (m : M A) (h : exn -> M A) (st st' : state) (a : A) :
  m st = (Ok a, st') -> try_except m h st = (Ok a, st').
Proof. intros H. unfold try_except. by rewrite H. Qed.

Lemma try_except_Raised {A} (m : M A) (h : exn -> M A) (st st' : state) e :
  m st = (Raised e, st') -> try_except m h st = h e st'.
Proof. intros H. unfold try_except. by rewrite H. Qed.

(** ** The loader of [.env] *)

Section Loader.

Variable w : world.

Lemma isspace_EQUALS : isspace EQUALS = false.
Proof. reflexivity. Qed.

(** A line is skipped when it is blank, starts with ['#'] or has no
    ['=']. *)
Lemma load_line_skip (line : str) (st : state) :
  truthy (strip line) = false \/ startswith HASH line = true
  \/ contains EQUALS line = false ->
  load_line line st = (Ok tt, st).
Proof.
  unfold load_line. intros [-> | [-> | ->]]; simpl; [done| |].
  - by rewrite andb_false_r.
  - by rewrite andb_false_r.
Qed.

(** Any other line is cut at its first ['='] and assigned. *)
Lemma load_line_assign (line key value : str) (st : state) :
  startswith HASH line = false ->
  strip line = key ++ EQUALS :: value ->
  contains EQUALS key = false ->
  load_line line st = environ_setitem key value st.
Proof.
  intros Hhash Hstrip Hkey. unfold load_line.
  assert (contains EQUALS line = true) as ->.
  { rewrite <- (contains_strip EQUALS line isspace_EQUALS), Hstrip.
    rewrite contains_app. simpl. by rewrite orb_true_r. }
  rewrite Hhash, Hstrip.
  assert (truthy (key ++ EQUALS :: value) = true) as -> by (by destruct key).
  simpl. by rewrite split1_cut.
Qed.

Lemma environ_setitem_Ok (key value : str) (st : state) :
  key <> [] -> contains NUL key = false -> contains NUL value = false ->
  contains EQUALS key = false ->
  environ_setitem key value st
  = (Ok tt, State (<[key := value]> (environ st)) (trace st)).
Proof.
  intros Hk Hn1 Hn2 He. unfold environ_setitem.
  rewrite Hn1, Hn2, He. by destruct key.
Qed.

(** The loop body never ends the process and never prints. *)
Lemma load_line_result (line : str) (st : state) :
  exists r env', load_line line st = (r, State env' (trace st))
                 /\ (forall code, r <> Exited code).
Proof.
  unfold load_line.
  destruct (truthy (strip line) && negb (startswith HASH line)
            && contains EQUALS line).
  - unfold bind, unpack2.
    destruct (split1 EQUALS (strip line)) as [|a [|b [|c l]]]; simpl;
      try (destruct st; eexists _, _; split; [reflexivity | done]).
    unfold environ_setitem.
    repeat match goal with
           | |- context [if ?b then _ else _] => destruct b
           end; destruct st; eexists _, _; (split; [reflexivity | done]).
  - destruct st; eexists _, _; split; [reflexivity | done].
Qed.

Lemma for_each_load_line (ls : list str) (st : state) :
  exists r env', for_each ls load_line st = (r, State env' (trace st))
                 /\ (forall code, r <> Exited code).
Proof.
  revert st. induction ls as [|l ls IH]; intros st; simpl.
  - destruct st. eexists _, _. split; [reflexivity | done].
  - destruct (load_line_result l st) as (r & env' & Hl & Hr).
    unfold bind. rewrite Hl. destruct r as [[]|e|c].
    + destruct (IH (State env' (trace st))) as (r2 & env2 & H2 & Hr2).
      rewrite H2. eauto.
    + eauto.
    + by destruct (Hr c).
Qed.

(** The loading step always completes normally; it leaves on stdout
    nothing or one warning. *)
Lemma load_dotenv_result (st : state) :
  exists env' out,
    load_dotenv w st = (Ok tt, State env' (trace st ++ out))
    /\ (out = [] \/ exists e,
          out = [Print (lit "Warning: Could not load .env: " ++ exn_text e)]).
Proof.
  unfold load_dotenv, try_except, bind, lift.
  destruct (open_dotenv w) as [e|f]; simpl.
  - exists (environ st), [Print (lit "Warning: Could not load .env: " ++ exn_text e)].
    split; [done | eauto].
  - unfold for_in, bind.
    destruct (for_each_load_line (items f) st) as (r & env' & Hf & Hr).
    rewrite Hf. destruct r as [[]|e|c].
    + destruct (failure f) as [e|]; simpl.
      * exists env', [Print (lit "Warning: Could not load .env: " ++ exn_text e)].
        split; [done | eauto].
      * exists env', []. rewrite app_nil_r. split; [done | eauto].
    + exists env', [Print (lit "Warning: Could not load .env: " ++ exn_text e)].
      split; [done | eauto].
    + by destruct (Hr c).
Qed.

End Loader.

(** ** The request and the rendering of its response *)

Section Request.

Variable w : world.

Lemma raise_for_status_error (resp : response) (st : state) :
  http_error_status (status_code resp) = true ->
  raise_for_status resp st = (Raised (status_error resp), st).
Proof.
  unfold http_error_status, raise_for_status, status_error, raise.
  intros [H1 H2]%andb_true_iff. rewrite H1. simpl.
  destruct (status_code resp <? 500)%Z eqn:H5; [done|].
  assert ((500 <=? status_code resp)%Z = true) as -> by lia.
  by rewrite H2.
Qed.

Lemma raise_for_status_success (resp : response) (st : state) :
  http_error_status (status_code resp) = false ->
  raise_for_status resp st = (Ok tt, st).
Proof.
  unfold http_error_status, raise_for_status, ret.
  intros H.
  destruct (400 <=? status_code resp)%Z eqn:H4;
    destruct (status_code resp <? 500)%Z eqn:H5;
    destruct (status_code resp <? 600)%Z eqn:H6;
    destruct (500 <=? status_code resp)%Z eqn:H7;
    simpl in *; try done; lia.
Qed.

Lemma for_each_app {A} (l1 l2 : list A) (body : A -> M unit) (st : state) :
  for_each (l1 ++ l2) body st = bind (for_each l1 body) (fun _ => for_each l2 body) st.
Proof.
  revert st. induction l1 as [|x l1 IH]; intros st; simpl; [done|].
  unfold bind. destruct (body x st) as [[[]|e|c] st']; [|done..].
  by rewrite IH.
Qed.

(** The streaming loop over lines that all decode prints them. *)
Lemma for_each_render_line (ls : list bytes) (texts : list str) (st : state) :
  decoded_lines ls = Some texts ->
  for_each ls (render_line w) st
  = (Ok tt, State (environ st) (trace st ++ map Print texts)).
Proof.
  unfold decoded_lines.
  revert texts st. induction ls as [|l ls IH]; intros texts st; simpl.
  - intros [= <-]. simpl. rewrite app_nil_r. by destruct st.
  - unfold bind, render_line. destruct l as [|b l]; simpl.
    + intros H. by apply IH.
    + unfold decode_line, bind.
      destruct (decode (b :: l)) as [t|]; simpl; [|done].
      destruct (mapM decode (List.filter truthy ls)) as [ts|] eqn:Hts;
        simpl; [|done].
      intros [= <-]. rewrite (IH ts); [|done]. simpl.
      by rewrite <- app_assoc.
Qed.

(** It stops at the first line that does not. *)
Lemma for_each_render_line_undecodable
    (before after : list bytes) (line : bytes) (texts : list str) (st : state) :
  decoded_lines before = Some texts ->
  line <> [] -> decode line = None ->
  for_each (before ++ line :: after) (render_line w) st
  = (Raised (Exn "UnicodeDecodeError" (utf8_error_text w line)),
     State (environ st) (trace st ++ map Print texts)).
Proof.
  intros Hb Hl Hd. rewrite for_each_app. unfold bind.
  rewrite (for_each_render_line before texts st Hb). simpl.
  unfold bind, render_line, decode_line, bind.
  destruct line as [|b line]; [done|]. simpl. by rewrite Hd.
Qed.

(** Either every non-empty line decodes or there is a first one that
    does not. *)
Lemma decoded_lines_cases (ls : list bytes) :
  (exists texts, decoded_lines ls = Some texts)
  \/ (exists before line after,
        ls = before ++ line :: after /\ is_Some (decoded_lines before)
        /\ line <> [] /\ decode line = None).
Proof.
  unfold decoded_lines.
  induction ls as [|l ls IH]; simpl; [left; eauto|].
  destruct l as [|b l]; simpl.
  - destruct IH as [[ts Hts] | (bf & ln & af & -> & Hbf & Hln & Hd)].
    + left; eauto.
    + right. exists ([] :: bf), ln, af. by simpl.
  - destruct (decode (b :: l)) as [t|] eqn:Ht.
    + destruct IH as [[ts Hts] | (bf & ln & af & -> & [ts Hbf] & Hln & Hd)].
      * left. rewrite Hts. simpl. eauto.
      * right. exists ((b :: l) :: bf), ln, af. simpl. rewrite Ht, Hbf.
        simpl. eauto.
    + right. exists [], (b :: l), ls. simpl. eauto.
Qed.

End Request.

(** ** Whole runs *)

Section Run.

Variable w : world.
Variable s : bool.

Lemma load_dotenv_loaded (env : gmap str str) :
  load_dotenv w (State env []) = (Ok tt, loaded w env).
Proof.
  unfold loaded.
  destruct (load_dotenv_result w (State env [])) as (env' & out & H & _).
  by rewrite H.
Qed.

(** The loading step prints nothing or one warning, and posts nothing. *)
Lemma loaded_trace (env : gmap str str) :
  trace (loaded w env) = []
  \/ exists e, trace (loaded w env)
               = [Print (lit "Warning: Could not load .env: " ++ exn_text e)].
Proof.
  unfold loaded.
  destruct (load_dotenv_result w (State env [])) as (env' & out & H & Hout).
  rewrite H. simpl. done.
Qed.

Lemma run_missing (env : gmap str str) :
  credential w env = None \/ credential w env = Some [] ->
  run w s env
  = Outcome
      (trace (loaded w env)
       ++ [Print (lit "Error: Missing NVIDIA_API_KEY_KIMI in .env")])
      1 (environ (loaded w env)).
Proof.
  unfold credential, run, script, bind. rewrite load_dotenv_loaded.
  unfold resolve_and_request, bind, environ_get.
  by intros [-> | ->].
Qed.

Lemma run_present (env : gmap str str) (api_key : str) :
  credential w env = Some api_key -> api_key <> [] ->
  run w s env
  = let '(r, st) :=
      try_except (request_and_render w s api_key)
        (fun e => print (lit "Error: " ++ exn_text e))
        (State (environ (loaded w env))
           (trace (loaded w env) ++ [Print (banner api_key)])) in
    Outcome (trace st)
      (match r with Ok _ => 0 | Raised _ => 1 | Exited code => code end)
      (environ st).
Proof.
  unfold credential, run, script, bind. rewrite load_dotenv_loaded.
  unfold resolve_and_request, bind, environ_get.
  intros -> Hk. destruct api_key as [|c k]; [done|]. simpl.
  by destruct (try_except _ _ _) as [r st].
Qed.

(** Each failure of [request_error] makes the body of the [try] raise
    its exception, after the request was posted and some lines were
    printed. *)
Lemma request_and_render_raises (api_key : str) (e : exn) (st : state) :
  request_error w s api_key e ->
  exists texts,
    request_and_render w s api_key st
    = (Raised e,
       State (environ st)
         (trace st ++ Post (post_request s api_key) :: map Print texts)).
Proof.
  intros H. unfold request_and_render, bind, requests_post.
  destruct H as [e Hp | resp Hp Hs | resp e -> Hp Hs [ts Hd] Hf
                | resp bf ln af -> Hp Hs Hi [ts Hd] Hl Hu
                | resp e -> Hp Hs Hj]; rewrite Hp; simpl.
  - by exists [].
  - rewrite raise_for_status_error by done. by exists [].
  - rewrite raise_for_status_success by done.
    unfold for_in, bind. rewrite (for_each_render_line w _ ts) by done.
    rewrite Hf. simpl. exists ts. by rewrite <- app_assoc.
  - rewrite raise_for_status_success by done.
    unfold for_in, bind. rewrite Hi.
    rewrite (for_each_render_line_undecodable w _ _ _ ts) by done.
    simpl. exists ts. by rewrite <- app_assoc.
  - rewrite raise_for_status_success by done.
    unfold response_json, lift, bind. rewrite Hj. by exists [].
Qed.

(** Conversely the body of the [try] raises in no other way, and it
    never ends the process. *)
Lemma request_and_render_cases (api_key : str) (st : state) :
  (exists st', request_and_render w s api_key st = (Ok tt, st'))
  \/ (exists e, request_error w s api_key e).
Proof.
  destruct (http_post w (post_request s api_key)) as [e|resp] eqn:Hp.
  { right. exists e. by apply transport_error. }
  destruct (http_error_status (status_code resp)) eqn:Hs.
  { right. exists (status_error resp). by apply bad_status. }
  destruct s eqn:Es.
  - destruct (decoded_lines_cases (items (iter_lines resp)))
      as [[ts Hd] | (bf & ln & af & Hi & Hbf & Hl & Hu)].
    + destruct (failure (iter_lines resp)) as [e|] eqn:Hf.
      * right. exists e. eapply broken_stream; eauto.
      * left. unfold request_and_render, bind, requests_post.
        rewrite Hp. simpl. rewrite raise_for_status_success by done.
        unfold for_in, bind. rewrite (for_each_render_line w _ ts) by done.
        rewrite Hf. simpl. eauto.
    + right. eexists. eapply undecodable_line; eauto.
  - destruct (json_loads w (content resp)) as [e|v] eqn:Hj.
    + right. exists e. eapply malformed_json; eauto.
    + left. unfold request_and_render, bind, requests_post.
      rewrite Hp. simpl. rewrite raise_for_status_success by done.
      unfold response_json, lift, bind. rewrite Hj. simpl. eauto.
Qed.

Lemma request_and_render_Raised (api_key : str) (e : exn) (st st' : state) :
  request_and_render w s api_key st = (Raised e, st') ->
  request_error w s api_key e.
Proof.
  intros H. destruct (request_and_render_cases api_key st) as [[st2 H2]|[e2 H2]].
  - congruence.
  - destruct (request_and_render_raises api_key e2 st H2) as [ts Hts].
    rewrite Hts in H. by inversion H; subst.
Qed.

(** With a credential, every run prints the banner, posts the request
    once and from then on only prints; its exit status is 0. *)
Lemma run_present_shape (env : gmap str str) (api_key : str) :
  credential w env = Some api_key -> api_key <> [] ->
  exists texts,
    events (run w s env)
    = trace (loaded w env)
      ++ Print (banner api_key) :: Post (post_request s api_key)
         :: map Print texts
    /\ exit_status (run w s env) = 0%Z.
Proof.
  intros Hc Hk. rewrite (run_present env api_key Hc Hk).
  set (st := State _ _).
  destruct (request_and_render_cases api_key st) as [[st2 H2]|[e H2]].
  - destruct (http_post w (post_request s api_key)) as [e|resp] eqn:Hp.
    { destruct (request_and_render_raises api_key e st) as [ts Hts];
        [by apply transport_error | congruence]. }
    destruct (http_error_status (status_code resp)) eqn:Hs.
    { destruct (request_and_render_raises api_key (status_error resp) st)
        as [ts Hts]; [by apply bad_status | congruence]. }
    unfold try_except. revert H2.
    unfold request_and_render, bind, requests_post. rewrite Hp. simpl.
    rewrite raise_for_status_success by done.
    destruct s.
    + unfold for_in, bind.
      destruct (decoded_lines_cases (items (iter_lines resp)))
        as [[ts Hd] | (bf & ln & af & Hi & [ts Hbf] & Hl & Hu)].
      * rewrite (for_each_render_line w _ ts) by done.
        destruct (failure (iter_lines resp)); simpl; [done|].
        intros _. exists ts. simpl. by rewrite <- !app_assoc.
      * rewrite Hi.
        by rewrite (for_each_render_line_undecodable w _ _ _ ts).
    + unfold response_json, lift, bind.
      destruct (json_loads w (content resp)) as [e|v]; simpl; [done|].
      intros _. exists [py_str w v]. simpl. by rewrite <- !app_assoc.
  - destruct (request_and_render_raises api_key e st H2) as [ts Hts].
    unfold try_except. rewrite Hts. simpl.
    exists (ts ++ [lit "Error: " ++ exn_text e]).
    rewrite map_app. simpl. by rewrite <- !app_assoc.
Qed.

End Run.

Lemma posts_app (a b : list event) : posts (a ++ b) = posts a ++ posts b.
Proof. apply omap_app. Qed.

Lemma posts_Print (texts : list str) : posts (map Print texts) = [].
Proof. induction texts; simpl; done. Qed.

Lemma posts_loaded (w : world) (env : gmap str str) :
  posts (trace (loaded w env)) = [].
Proof. by destruct (loaded_trace w env) as [-> | [e ->]]. Qed.

(** ** Exact runs *)

Section Exact.

Variable w : world.
Variable s : bool.
Variable env : gmap str str.
Variable api_key : str.
Hypothesis Hcredential : credential w env = Some api_key.
Hypothesis Hnonempty : api_key <> [].

(** The run when the body of the [try] raises [e] in the state [st']. *)
Lemma run_caught (e : exn) (st' : state) :
  request_and_render w s api_key
    (State (environ (loaded w env))
       (trace (loaded w env) ++ [Print (banner api_key)]))
  = (Raised e, st') ->
  run w s env
  = Outcome (trace st' ++ [Print (lit "Error: " ++ exn_text e)]) 0 (environ st').
Proof.
  intros H. rewrite (run_present w s env api_key Hcredential Hnonempty).
  by rewrite (try_except_Raised _ _ _ _ _ H).
Qed.

(** The run when it returns normally in the state [st']. *)
Lemma run_rendered (st' : state) :
  request_and_render w s api_key
    (State (environ (loaded w env))
       (trace (loaded w env) ++ [Print (banner api_key)]))
  = (Ok tt, st') ->
  run w s env = Outcome (trace st') 0 (environ st').
Proof.
  intros H. rewrite (run_present w s env api_key Hcredential Hnonempty).
  by rewrite (try_except_Ok _ _ _ _ _ H).
Qed.

Lemma run_transport_error (e : exn) :
  http_post w (post_request s api_key) = inl e ->
  run w s env
  = Outcome
      (trace (loaded w env)
       ++ [Print (banner api_key); Post (post_request s api_key);
           Print (lit "Error: " ++ exn_text e)])
      0 (environ (loaded w env)).
Proof.
  intros Hp. erewrite run_caught.
  2:{ unfold request_and_render, bind, requests_post. rewrite Hp. done. }
  simpl. by rewrite <- !app_assoc.
Qed.

Lemma run_bad_status (resp : response) :
  http_post w (post_request s api_key) = inr resp ->
  http_error_status (status_code resp) = true ->
  run w s env
  = Outcome
      (trace (loaded w env)
       ++ [Print (banner api_key); Post (post_request s api_key);
           Print (lit "Error: " ++ exn_text (status_error resp))])
      0 (environ (loaded w env)).
Proof.
  intros Hp Hs. erewrite run_caught.
  2:{ unfold request_and_render, bind, requests_post. rewrite Hp. simpl.
      rewrite raise_for_status_error by done. done. }
  simpl. by rewrite <- !app_assoc.
Qed.

End Exact.

Lemma run_streamed (w : world) (env : gmap str str) (api_key : str)
    (resp : response) (texts : list str) :
  credential w env = Some api_key -> api_key <> [] ->
  http_post w (post_request true api_key) = inr resp ->
  http_error_status (status_code resp) = false ->
  failure (iter_lines resp) = None ->
  decoded_lines (items (iter_lines resp)) = Some texts ->
  run w true env
  = Outcome
      (trace (loaded w env)
       ++ [Print (banner api_key); Post (post_request true api_key)]
       ++ map Print texts)
      0 (environ (loaded w env)).
Proof.
  intros Hc Hk Hp Hs Hf Hd. erewrite run_rendered; [|done..|].
  2:{ unfold request_and_render, bind, requests_post. rewrite Hp. simpl.
      rewrite raise_for_status_success by done.
      unfold for_in, bind. rewrite (for_each_render_line w _ texts) by done.
      rewrite Hf. done. }
  simpl. by rewrite <- !app_assoc.
Qed.

Lemma run_parsed (w : world) (env : gmap str str) (api_key : str)
    (resp : response) (v : pyval) :
  credential w env = Some api_key -> api_key <> [] ->
  http_post w (post_request false api_key) = inr resp ->
  http_error_status (status_code resp) = false ->
  json_loads w (content resp) = inr v ->
  run w false env
  = Outcome
      (trace (loaded w env)
       ++ [Print (banner api_key); Post (post_request false api_key);
           Print (py_str w v)])
      0 (environ (loaded w env)).
Proof.
  intros Hc Hk Hp Hs Hj. erewrite run_rendered; [|done..|].
  2:{ unfold request_and_render, bind, requests_post. rewrite Hp. simpl.
      rewrite raise_for_status_success by done.
      unfold response_json, lift, bind. rewrite Hj. done. }
  simpl. by rewrite <- !app_assoc.
Qed.

(** ** The banner on standard output *)

(** The fixed text that precedes the credential in the banner does not
    overlap itself: it cannot end up to ten characters before its end
    and be followed by its own tail. *)
Lemma banner_intro_no_overlap (A B l : str) :
  (length l <= 10)%nat ->
  A ++ lit "Testing Kimi with Python requests (Key: "
  = (B ++ lit "Testing Kimi with Python requests (Key: ") ++ l ->
  l = [].
Proof.
  set (T := lit "Testing Kimi with Python requests (Key: ").
  intros Hlen H. destruct l as [|c l]; [done|]. exfalso.
  set (n := length (c :: l)) in *.
  assert (length T = 40%nat) as HT by reflexivity.
  rewrite <- (take_drop n T) in H at 2.
  rewrite <- !app_assoc in H. rewrite (app_assoc B) in H.
  apply app_inj_2 in H as [_ H].
  2:{ rewrite length_app, length_drop, HT. fold n. lia. }
  subst n. clear HT A B.
  do 10 (destruct l as [|? l]; [vm_compute in H; discriminate H|]).
  simpl in Hlen. lia.
Qed.

Lemma banner_prefix_inj (A B p q : str) :
  (length p <= 10)%nat -> (length q <= 10)%nat ->
  A ++ lit "Testing Kimi with Python requests (Key: " ++ p
  = B ++ lit "Testing Kimi with Python requests (Key: " ++ q ->
  p = q.
Proof.
  intros Hp Hq H. rewrite !app_assoc in H.
  apply app_eq_app in H as [l [[H1 H2] | [H1 H2]]].
  - assert (l = []) as -> by (eapply banner_intro_no_overlap;
      [|exact H1]; subst q; rewrite length_app in Hq; lia).
    by subst q.
  - assert (l = []) as -> by (eapply banner_intro_no_overlap;
      [|exact H1]; subst p; rewrite length_app in Hp; lia).
    by subst p.
Qed.

(** What is on standard output when the request is dispatched: what the
    loading step printed, then the banner. *)
Lemma stdout_before_post_run (w : world) (s : bool) (env : gmap str str)
    (api_key : str) :
  credential w env = Some api_key -> api_key <> [] ->
  stdout_before_post (events (run w s env))
  = stdout_before_post (trace (loaded w env)) ++ banner api_key ++ [LF].
Proof.
  intros Hc Hk.
  destruct (run_present_shape w s env api_key Hc Hk) as (texts & He & _).
  rewrite He. by destruct (loaded_trace w env) as [-> | [e ->]]; simpl;
    rewrite <- ?app_assoc.
Qed.

(** * The statements of the specification *)

(** ** Credential resolver *)

(** C1. Whenever [NVIDIA_API_KEY_KIMI] is unset or empty once [.env] has
    been loaded, the run ends with exit status 1, the last thing it
    prints is the error that names the variable, and no request is
    posted. *)
Theorem missing_credential_exits (w : world) (s : bool) (env : gmap str str) :
  credential w env = None \/ credential w env = Some [] ->
  exit_status (run w s env) = 1%Z
  /\ events (run w s env)
     = trace (loaded w env)
       ++ [Print (lit "Error: Missing NVIDIA_API_KEY_KIMI in .env")]
  /\ posts (events (run w s env)) = [].
Proof.
  intros H. rewrite (run_missing w s env H). simpl.
  split; [done|]. split; [done|].
  by rewrite posts_app, posts_loaded.
Qed.

Lemma missing_credential_exits_witness :
  exit_status (main (mock no_dotenv sse_endpoint) ∅) = 1%Z
  /\ events (main (mock no_dotenv sse_endpoint) ∅)
     = trace (loaded (mock no_dotenv sse_endpoint) ∅)
       ++ [Print (lit "Error: Missing NVIDIA_API_KEY_KIMI in .env")]
  /\ posts (events (main (mock no_dotenv sse_endpoint) ∅)) = [].
Proof.
  apply (missing_credential_exits (mock no_dotenv sse_endpoint) stream ∅).
  left. reflexivity.
Defined.

(** ** Environment loader *)

(** C9. A line without ['='] is skipped: the loop body returns normally
    and leaves the process state as it was, whatever else the line
    holds; and the loading step as a whole completes normally on every
    file, so no content of [.env] makes the script fail there. *)
Theorem loader_skips_line_without_equals (w : world) (line : str) (st : state) :
  contains EQUALS line = false ->
  load_line line st = (Ok tt, st)
  /\ exists st', load_dotenv w st = (Ok tt, st').
Proof.
  intros H. split.
  - apply load_line_skip. auto.
  - destruct (load_dotenv_result w st) as (env' & out & Hl & _). eauto.
Qed.

Lemma loader_skips_line_without_equals_witness :
  load_line (lit "export TOKEN" ++ [LF]) (State ∅ []) = (Ok tt, State ∅ [])
  /\ exists st', load_dotenv (mock no_dotenv sse_endpoint) (State ∅ [])
                 = (Ok tt, st').
Proof.
  apply (loader_skips_line_without_equals (mock no_dotenv sse_endpoint)
           (lit "export TOKEN" ++ [LF]) (State ∅ [])).
  reflexivity.
Defined.

(** C3, as the specification words it, fails: the test for ['#'] is made
    on the line as read, not on the trimmed line, so an indented comment
    that holds an ['='] is assigned. Here the trimmed line starts with
    ['#'] and yet the variable [#x] is set. *)
Lemma indented_comment_is_assigned :
  startswith HASH (strip indented_comment) = true
  /\ load_line indented_comment (State ∅ [])
     = (Ok tt, State {[ lit "#x" := lit "1" ]} [])
  /\ load_line indented_comment (State ∅ []) <> (Ok tt, State ∅ []).
Proof.
  split; [reflexivity|]. split; [reflexivity|].
  intros H. apply (f_equal (fun r => environ r.2 !! lit "#x")) in H.
  vm_compute in H. discriminate.
Qed.

(** C3, amended. The loop body skips a line that is blank after
    trimming, or whose first character before trimming is ['#'], or that
    holds no ['=']. Every other line, once trimmed, splits at its first
    ['='] into a key and a value, which are assigned to the environment;
    when the operating system accepts the name (it is not empty and
    neither it nor the value holds a NUL) the variable holds the value
    afterwards, whatever it held before. *)
Theorem loader_line_by_line (line : str) (st : state) :
  (truthy (strip line) = false \/ startswith HASH line = true
   \/ contains EQUALS line = false ->
   load_line line st = (Ok tt, st))
  /\ (truthy (strip line) = true -> startswith HASH line = false ->
      contains EQUALS line = true ->
      exists key value,
        strip line = key ++ EQUALS :: value /\ contains EQUALS key = false)
  /\ (forall key value,
        startswith HASH line = false ->
        strip line = key ++ EQUALS :: value ->
        contains EQUALS key = false ->
        load_line line st = environ_setitem key value st
        /\ (key <> [] -> contains NUL key = false ->
            contains NUL value = false ->
            load_line line st
            = (Ok tt, State (<[key := value]> (environ st)) (trace st)))).
Proof.
  split; [apply load_line_skip|]. split.
  - intros Ht Hh He.
    rewrite <- (contains_strip EQUALS line isspace_EQUALS) in He.
    apply (contains_cut EQUALS (strip line) He).
  - intros key value Hh Hs Hk.
    rewrite (load_line_assign line key value st Hh Hs Hk).
    split; [done|]. intros. by apply environ_setitem_Ok.
Qed.

Lemma loader_line_by_line_witness :
  load_line (lit "NVIDIA_API_KEY_KIMI=abc123" ++ [LF])
    (State {[ lit "NVIDIA_API_KEY_KIMI" := lit "old" ]} [])
  = (Ok tt,
     State (<[ lit "NVIDIA_API_KEY_KIMI" := lit "abc123" ]>
              {[ lit "NVIDIA_API_KEY_KIMI" := lit "old" ]}) []).
Proof.
  refine (proj2 (proj2 (proj2 (loader_line_by_line
                          (lit "NVIDIA_API_KEY_KIMI=abc123" ++ [LF])
                          (State {[ lit "NVIDIA_API_KEY_KIMI" := lit "old" ]} [])))
                   (lit "NVIDIA_API_KEY_KIMI") (lit "abc123")
                   eq_refl eq_refl eq_refl) _ eq_refl eq_refl).
  discriminate.
Defined.

(** C7. When [.env] cannot be opened, or breaks off while it is read,
    the loading step prints one warning that carries the error and the
    script goes on with the credential check from there: without a
    credential it reports that and exits with status 1, with one it
    prints the banner and posts the request.  When the file could not be
    opened the environment is the one the process started with. *)
Theorem unreadable_dotenv_is_not_fatal
    (w : world) (s : bool) (env : gmap str str) (e : exn) :
  dotenv_unreadable w env e ->
  trace (loaded w env)
  = [Print (lit "Warning: Could not load .env: " ++ exn_text e)]
  /\ script w s (State env []) = resolve_and_request w s (loaded w env)
  /\ (credential w env = None \/ credential w env = Some [] ->
      events (run w s env)
      = [Print (lit "Warning: Could not load .env: " ++ exn_text e);
         Print (lit "Error: Missing NVIDIA_API_KEY_KIMI in .env")]
      /\ exit_status (run w s env) = 1%Z)
  /\ (forall api_key,
        credential w env = Some api_key -> api_key <> [] ->
        exists texts,
          events (run w s env)
          = Print (lit "Warning: Could not load .env: " ++ exn_text e)
            :: Print (banner api_key) :: Post (post_request s api_key)
            :: map Print texts
          /\ exit_status (run w s env) = 0%Z)
  /\ (open_dotenv w = inl e -> environ (loaded w env) = env).
Proof.
  intros H.
  assert (trace (loaded w env)
          = [Print (lit "Warning: Could not load .env: " ++ exn_text e)]) as Ht.
  { unfold loaded, load_dotenv, try_except, bind, lift.
    destruct H as [Ho | f env' Ho Hl Hf]; rewrite Ho; simpl; [done|].
    unfold for_in, bind. rewrite Hl, Hf. done. }
  split; [done|]. split; [|split; [|split]].
  - unfold script, bind. by rewrite load_dotenv_loaded.
  - intros Hc. rewrite (run_missing w s env Hc). simpl. by rewrite Ht.
  - intros api_key Hc Hk.
    destruct (run_present_shape w s env api_key Hc Hk) as (texts & He & Hx).
    exists texts. rewrite He, Ht. done.
  - intros Ho. unfold loaded, load_dotenv, try_except, bind, lift.
    by rewrite Ho.
Qed.

Lemma unreadable_dotenv_is_not_fatal_witness :
  trace (loaded (mock no_dotenv timeout_endpoint) ∅)
  = [Print (lit "Warning: Could not load .env: "
            ++ lit "[Errno 2] No such file or directory: '.env'")].
Proof.
  apply (unreadable_dotenv_is_not_fatal
           (mock no_dotenv timeout_endpoint) stream ∅
           (Exn "FileNotFoundError"
              (lit "[Errno 2] No such file or directory: '.env'"))).
  apply cannot_open. reflexivity.
Defined.

(** ** Request dispatcher *)

(** C6. With the credential [api_key], a run posts exactly one request:
    to the fixed URL, with [Authorization] set to ["Bearer "] followed by
    the credential, [Accept] set to the event-stream type when streaming
    and to JSON otherwise, the fixed payload as JSON body with its
    [stream] field equal to the flag, the flag as [stream] argument and
    a timeout of 30. *)
Theorem one_post_with_fixed_request
    (w : world) (s : bool) (env : gmap str str) (api_key : str) :
  credential w env = Some api_key -> api_key <> [] ->
  exists r,
    posts (events (run w s env)) = [r]
    /\ req_url r = lit "https://integrate.api.nvidia.com/v1/chat/completions"
    /\ req_headers r !! lit "Authorization" = Some (lit "Bearer " ++ api_key)
    /\ req_headers r !! lit "Accept"
       = Some (if s then lit "text/event-stream" else lit "application/json")
    /\ req_json r = payload s
    /\ dict_get (lit "stream") (req_json r) = Some (PBool s)
    /\ dict_get (lit "model") (req_json r)
       = Some (PStr (lit "moonshotai/kimi-k2.5"))
    /\ dict_get (lit "messages") (req_json r)
       = Some (PList [PDict [ (lit "role", PStr (lit "user"));
                              (lit "content", PStr (lit "Hello")) ]])
    /\ dict_get (lit "max_tokens") (req_json r) = Some (PInt 16384)
    /\ dict_get (lit "temperature") (req_json r) = Some (PFloat 1.0)
    /\ dict_get (lit "top_p") (req_json r) = Some (PFloat 1.0)
    /\ dict_get (lit "chat_template_kwargs") (req_json r)
       = Some (PDict [ (lit "thinking", PBool true) ])
    /\ req_stream r = s
    /\ req_timeout r = 30%Z.
Proof.
  intros Hc Hk. exists (post_request s api_key).
  split.
  { destruct (run_present_shape w s env api_key Hc Hk) as (texts & He & _).
    rewrite He, posts_app, posts_loaded. simpl.
    fold (posts (map Print texts)). by rewrite posts_Print. }
  split; [reflexivity|]. split.
  { unfold post_request, headers. simpl.
    rewrite lookup_insert_eq. done. }
  split.
  { unfold post_request, headers. simpl.
    rewrite lookup_insert_ne by (vm_compute; discriminate).
    by rewrite lookup_singleton_eq. }
  repeat split; reflexivity.
Qed.

Lemma one_post_with_fixed_request_witness :
  exists r,
    posts (events (main (mock dotenv_abc123 sse_endpoint) ∅)) = [r]
    /\ req_url r = lit "https://integrate.api.nvidia.com/v1/chat/completions"
    /\ req_headers r !! lit "Authorization" = Some (lit "Bearer " ++ lit "abc123")
    /\ req_headers r !! lit "Accept"
       = Some (if stream then lit "text/event-stream" else lit "application/json")
    /\ req_json r = payload stream
    /\ dict_get (lit "stream") (req_json r) = Some (PBool stream)
    /\ dict_get (lit "model") (req_json r)
       = Some (PStr (lit "moonshotai/kimi-k2.5"))
    /\ dict_get (lit "messages") (req_json r)
       = Some (PList [PDict [ (lit "role", PStr (lit "user"));
                              (lit "content", PStr (lit "Hello")) ]])
    /\ dict_get (lit "max_tokens") (req_json r) = Some (PInt 16384)
    /\ dict_get (lit "temperature") (req_json r) = Some (PFloat 1.0)
    /\ dict_get (lit "top_p") (req_json r) = Some (PFloat 1.0)
    /\ dict_get (lit "chat_template_kwargs") (req_json r)
       = Some (PDict [ (lit "thinking", PBool true) ])
    /\ req_stream r = stream
    /\ req_timeout r = 30%Z.
Proof.
  apply (one_post_with_fixed_request (mock dotenv_abc123 sse_endpoint)
           stream ∅ (lit "abc123")).
  - reflexivity.
  - discriminate.
Defined.

(** C5, as the specification words it, fails: only the 4xx and 5xx
    statuses are errors for [raise_for_status]. A response with status
    300 is not a success, and yet the run prints its body and no error. *)
Lemma unsuccessful_status_prints_body :
  success_status 300 = false
  /\ events (main (mock dotenv_abc123 choices_endpoint) ∅)
     = [ Print (lit "Testing Kimi with Python requests (Key: abc123...)...");
         Post (post_request stream (lit "abc123"));
         Print (lit "see /v2/chat/completions") ]
  /\ exit_status (main (mock dotenv_abc123 choices_endpoint) ∅) = 0%Z.
Proof. split; [reflexivity|]. split; reflexivity. Qed.

(** C5, amended. A response whose status is a client or server error
    (400 to 599, such as 401) is an error: after the banner and the
    request the run prints the line [Error: ...] built from the status,
    the reason and the URL, and nothing of the body; it is the run of a
    world in which the transport itself fails with that exception. *)
Theorem error_status_is_a_failure
    (w : world) (s : bool) (env : gmap str str) (api_key : str)
    (resp : response) :
  credential w env = Some api_key -> api_key <> [] ->
  http_post w (post_request s api_key) = inr resp ->
  http_error_status (status_code resp) = true ->
  events (run w s env)
  = trace (loaded w env)
    ++ [Print (banner api_key); Post (post_request s api_key);
        Print (lit "Error: " ++ exn_text (status_error resp))]
  /\ run w s env
     = run (World (open_dotenv w) (fun _ => inl (status_error resp))
              (json_loads w) (py_str w) (utf8_error_text w)) s env.
Proof.
  intros Hc Hk Hp Hs.
  rewrite (run_bad_status w s env api_key Hc Hk resp Hp Hs).
  split; [done|]. symmetry.
  exact (run_transport_error
           (World (open_dotenv w) (fun _ => inl (status_error resp))
              (json_loads w) (py_str w) (utf8_error_text w))
           s env api_key Hc Hk (status_error resp) eq_refl).
Qed.

Lemma error_status_is_a_failure_witness :
  printed (events (main (mock dotenv_abc123 unauthorized_endpoint) ∅))
  = [ lit "Testing Kimi with Python requests (Key: abc123...)...";
      lit "Error: 401 Client Error: Unauthorized for url: https://integrate.api.nvidia.com/v1/chat/completions" ].
Proof.
  destruct (error_status_is_a_failure
              (mock dotenv_abc123 unauthorized_endpoint) stream ∅
              (lit "abc123")
              (Response 401 (lit "Unauthorized") invoke_url
                 (blit "{detail: denied}")
                 (Iterator [blit "{detail: denied}"] None)))
    as [He _]; [reflexivity | discriminate | reflexivity | reflexivity |].
  unfold main. rewrite He. reflexivity.
Defined.

(** ** Response renderer *)

(** C4. In streaming mode, when the response is not an error, its lines
    arrive to the end and the non-empty ones are UTF-8, the run prints
    after the banner exactly those lines, decoded and otherwise
    unchanged, in the order of arrival, and ends with status 0. *)
Theorem streaming_prints_each_line
    (w : world) (env : gmap str str) (api_key : str) (resp : response)
    (texts : list str) :
  credential w env = Some api_key -> api_key <> [] ->
  http_post w (post_request stream api_key) = inr resp ->
  http_error_status (status_code resp) = false ->
  failure (iter_lines resp) = None ->
  mapM decode (List.filter truthy (items (iter_lines resp))) = Some texts ->
  events (main w env)
  = trace (loaded w env)
    ++ [Print (banner api_key); Post (post_request stream api_key)]
    ++ map Print texts
  /\ exit_status (main w env) = 0%Z.
Proof.
  intros Hc Hk Hp Hs Hf Hd. unfold main, stream in *.
  by rewrite (run_streamed w env api_key resp texts).
Qed.

(** The two [data:] lines of the example are printed in their order. *)
Lemma streaming_prints_each_line_witness :
  printed (events (main (mock dotenv_abc123 sse_endpoint) ∅))
  = [ lit "Testing Kimi with Python requests (Key: abc123...)...";
      data_text "1"; data_text "2" ]
  /\ exit_status (main (mock dotenv_abc123 sse_endpoint) ∅) = 0%Z.
Proof.
  destruct (streaming_prints_each_line
              (mock dotenv_abc123 sse_endpoint) ∅ (lit "abc123")
              (Response 200 (lit "OK") invoke_url []
                 (Iterator [data_line "1"; []; data_line "2"] None))
              [data_text "1"; data_text "2"])
    as [He Hx];
    [reflexivity | discriminate | reflexivity | reflexivity | reflexivity
    | reflexivity |].
  rewrite He, Hx. split; reflexivity.
Defined.

(** C8. In non-streaming mode, when the response is not an error and its
    whole body parses as one JSON document, the run prints after the
    banner the parsed structure, and nothing else. *)
Theorem non_streaming_prints_parsed_body
    (w : world) (env : gmap str str) (api_key : str) (resp : response)
    (v : pyval) :
  credential w env = Some api_key -> api_key <> [] ->
  http_post w (post_request false api_key) = inr resp ->
  http_error_status (status_code resp) = false ->
  json_loads w (content resp) = inr v ->
  events (run w false env)
  = trace (loaded w env)
    ++ [Print (banner api_key); Post (post_request false api_key);
        Print (py_str w v)]
  /\ exit_status (run w false env) = 0%Z.
Proof.
  intros Hc Hk Hp Hs Hj.
  by rewrite (run_parsed w env api_key resp v).
Qed.

(** For the body of the example the structure printed is the one it
    denotes. *)
Lemma non_streaming_prints_parsed_body_witness :
  events (run (mock dotenv_abc123 hi_endpoint) false ∅)
  = [ Print (lit "Testing Kimi with Python requests (Key: abc123...)...");
      Post (post_request false (lit "abc123"));
      Print (simple_str hi_value) ]
  /\ simple_str hi_value
     = lit "{'choices': [{'message': {'content': 'hi'}}]}".
Proof.
  split; [|reflexivity].
  destruct (non_streaming_prints_parsed_body
              (mock dotenv_abc123 hi_endpoint) ∅ (lit "abc123")
              (Response 200 (lit "OK") invoke_url hi_body
                 (Iterator [hi_body] None))
              hi_value)
    as [He _];
    [reflexivity | discriminate | reflexivity | reflexivity | reflexivity |].
  rewrite He. reflexivity.
Defined.

(** ** Failures of the request *)

(** C2. Whatever fails in the request or in the rendering of its
    response (the transport, the status, the stream, the decoding of a
    line, the JSON document), the exception is caught: the last line the
    run prints is [Error: ] followed by the text of the exception, and
    the exit status is 0. *)
Theorem request_failure_is_reported
    (w : world) (s : bool) (env : gmap str str) (api_key : str) (e : exn) :
  credential w env = Some api_key -> api_key <> [] ->
  request_error w s api_key e ->
  exit_status (run w s env) = 0%Z
  /\ exists texts,
       events (run w s env)
       = trace (loaded w env)
         ++ [Print (banner api_key); Post (post_request s api_key)]
         ++ map Print texts
         ++ [Print (lit "Error: " ++ exn_text e)].
Proof.
  intros Hc Hk He.
  destruct (request_and_render_raises w s api_key e
              (State (environ (loaded w env))
                 (trace (loaded w env) ++ [Print (banner api_key)])) He)
    as [texts Ht].
  rewrite (run_caught w s env api_key Hc Hk e _ Ht). simpl.
  split; [done|]. exists texts. by rewrite <- !app_assoc.
Qed.

Lemma request_failure_is_reported_witness :
  exit_status (main (mock dotenv_abc123 timeout_endpoint) ∅) = 0%Z
  /\ exists texts,
       events (main (mock dotenv_abc123 timeout_endpoint) ∅)
       = trace (loaded (mock dotenv_abc123 timeout_endpoint) ∅)
         ++ [Print (banner (lit "abc123"));
             Post (post_request stream (lit "abc123"))]
         ++ map Print texts
         ++ [Print (lit "Error: " ++ lit "connection timed out")].
Proof.
  apply (request_failure_is_reported (mock dotenv_abc123 timeout_endpoint)
           stream ∅ (lit "abc123")
           (Exn "ConnectTimeout" (lit "connection timed out"))).
  - reflexivity.
  - discriminate.
  - apply transport_error. reflexivity.
Defined.

(** ** The banner *)

(** C10. Before the request is dispatched the run prints a banner that
    holds the first ten characters of the credential.  Two runs whose
    credentials differ within these characters differ in what is on
    standard output when the request is dispatched; and a credential of
    fewer than ten characters appears whole, the slice raising nothing. *)
Theorem banner_reveals_credential_prefix
    (w1 w2 : world) (s1 s2 : bool) (env1 env2 : gmap str str)
    (k1 k2 : str) :
  credential w1 env1 = Some k1 -> k1 <> [] ->
  credential w2 env2 = Some k2 -> k2 <> [] ->
  (exists before after,
     events (run w1 s1 env1)
     = before
       ++ Print (lit "Testing Kimi with Python requests (Key: "
                 ++ take 10%nat k1 ++ lit "...)...")
          :: Post (post_request s1 k1) :: after
     /\ posts before = [])
  /\ (take 10%nat k1 <> take 10%nat k2 ->
      stdout_before_post (events (run w1 s1 env1))
      <> stdout_before_post (events (run w2 s2 env2)))
  /\ ((length k1 < 10)%nat ->
      Print (lit "Testing Kimi with Python requests (Key: "
             ++ k1 ++ lit "...)...")
      ∈ events (run w1 s1 env1)).
Proof.
  intros Hc1 Hk1 Hc2 Hk2.
  destruct (run_present_shape w1 s1 env1 k1 Hc1 Hk1) as (texts & He & _).
  split; [|split].
  - exists (trace (loaded w1 env1)), (map Print texts).
    split; [done | apply posts_loaded].
  - intros Hne Heq. apply Hne.
    rewrite (stdout_before_post_run w1 s1 env1 k1 Hc1 Hk1) in Heq.
    rewrite (stdout_before_post_run w2 s2 env2 k2 Hc2 Hk2) in Heq.
    assert (forall (W k : str),
              W ++ banner k ++ [LF]
              = (W ++ lit "Testing Kimi with Python requests (Key: "
                 ++ take 10%nat k) ++ (lit "...)..." ++ [LF])) as Hr.
    { intros W k. unfold banner. by rewrite <- !app_assoc. }
    rewrite !Hr in Heq. apply app_inv_tail in Heq.
    apply banner_prefix_inj in Heq; [done|rewrite length_take; lia..].
  - intros Hlen. rewrite He. apply elem_of_app. right.
    unfold banner. rewrite take_ge by lia. left.
Qed.

Lemma banner_reveals_credential_prefix_witness :
  stdout_before_post (events (main (mock dotenv_abc123 sse_endpoint) ∅))
  <> stdout_before_post
       (events (main (mock no_dotenv sse_endpoint)
                  {[ lit "NVIDIA_API_KEY_KIMI" := lit "xyz789" ]})).
Proof.
  apply (banner_reveals_credential_prefix
           (mock dotenv_abc123 sse_endpoint) (mock no_dotenv sse_endpoint)
           stream stream ∅ {[ lit "NVIDIA_API_KEY_KIMI" := lit "xyz789" ]}
           (lit "abc123") (lit "xyz789")).
  - reflexivity.
  - discriminate.
  - reflexivity.
  - discriminate.
  - vm_compute. discriminate.
Defined.

(** * Further properties of the script *)

(** ** Trimming *)

Lemma lstrip_spaces (ws s : str) :
  Forall (fun c => isspace c = true) ws -> lstrip (ws ++ s) = lstrip s.
Proof.
  induction 1 as [|c ws Hc _ IH]; simpl; [done|]. by rewrite Hc.
Qed.

Lemma lstrip_fixed (s : str) :
  (forall c, head s = Some c -> isspace c = false) -> lstrip s = s.
Proof.
  destruct s as [|c s]; simpl; [done|]. intros H. by rewrite (H c).
Qed.

Lemma rstrip_spaces (s ws : str) :
  Forall (fun c => isspace c = true) ws -> rstrip (s ++ ws) = rstrip s.
Proof.
  intros H. unfold rstrip. rewrite rev_app_distr.
  rewrite lstrip_spaces; [done|]. by apply Forall_rev.
Qed.

Lemma last_rev_head (s : str) : last (rev s) = head s.
Proof.
  destruct s as [|c s]; simpl; [done|]. by rewrite last_snoc.
Qed.

Lemma rstrip_fixed (s : str) :
  (forall c, last s = Some c -> isspace c = false) -> rstrip s = s.
Proof.
  intros H. unfold rstrip. rewrite lstrip_fixed; [apply rev_involutive|].
  intros c Hc. apply H. by rewrite <- (rev_involutive s), last_rev_head.
Qed.

(** [lstrip] drops a prefix and [rstrip] a suffix. *)
Lemma lstrip_suffix (s : str) : exists ws, s = ws ++ lstrip s.
Proof.
  induction s as [|c s [ws IH]]; simpl; [by exists []|].
  destruct (isspace c); [|by exists []].
  exists (c :: ws). simpl. by rewrite <- IH.
Qed.

Lemma rstrip_prefix (s : str) : exists ws, s = rstrip s ++ ws.
Proof.
  unfold rstrip. destruct (lstrip_suffix (rev s)) as [ws H].
  exists (rev ws). rewrite <- rev_app_distr, <- H. symmetry.
  apply rev_involutive.
Qed.

Lemma lstrip_head (s : str) (c : N) :
  head (lstrip s) = Some c -> isspace c = false.
Proof.
  induction s as [|x s IH]; simpl; [done|].
  destruct (isspace x) eqn:Hx; [done|]. simpl. by intros [= <-].
Qed.

Lemma strip_head (s : str) (c : N) :
  head (strip s) = Some c -> isspace c = false.
Proof.
  unfold strip. intros H. apply (lstrip_head s).
  destruct (rstrip_prefix (lstrip s)) as [ws Hws]. rewrite Hws.
  by destruct (rstrip (lstrip s)).
Qed.

Lemma strip_last (s : str) (c : N) :
  last (strip s) = Some c -> isspace c = false.
Proof.
  unfold strip, rstrip. intros H.
  apply (lstrip_head (rev (lstrip s))). by rewrite <- last_rev_head.
Qed.

(** ** The loader, line by line *)

Lemma assignment_Some (line key value : str) :
  assignment line = Some (key, value) ->
  strip line = key ++ EQUALS :: value /\ contains EQUALS key = false.
Proof.
  unfold assignment.
  destruct (truthy (strip line) && negb (startswith HASH line)
            && contains EQUALS line); [|done].
  apply cut_Some.
Qed.

(** The loop body does what [assignment] reads off the line. *)
Lemma load_line_assignment (line : str) (st : state) :
  load_line line st
  = match assignment line with
    | Some (key, value) => environ_setitem key value st
    | None => (Ok tt, st)
    end.
Proof.
  unfold load_line, assignment.
  destruct (truthy (strip line)) eqn:Ht; simpl; [|done].
  destruct (startswith HASH line) eqn:Hh; simpl; [done|].
  destruct (contains EQUALS line) eqn:He; simpl; [|done].
  rewrite <- (contains_strip EQUALS line isspace_EQUALS) in He.
  destruct (contains_cut EQUALS (strip line) He) as (key & value & Hs & Hk).
  rewrite (proj2 (cut_Some EQUALS (strip line) key value)) by done.
  rewrite Hs. unfold bind. by rewrite split1_cut.
Qed.

Lemma acceptable_setitem (key value : str) (st : state) :
  acceptable (key, value) = true -> contains EQUALS key = false ->
  environ_setitem key value st
  = (Ok tt, State (<[key := value]> (environ st)) (trace st)).
Proof.
  unfold acceptable. simpl.
  intros [[Hk Hn1%negb_true_iff]%andb_true_iff Hn2%negb_true_iff]%andb_true_iff He.
  apply environ_setitem_Ok; [by destruct key|done..].
Qed.

(** What a line of the form [key=value] with blanks around it is read as. *)
Lemma assignment_padded (ws1 key value ws2 : str) :
  Forall (fun c => isspace c = true) ws1 ->
  Forall (fun c => isspace c = true) ws2 ->
  key <> [] ->
  (forall c, head key = Some c -> isspace c = false) ->
  (forall c, last value = Some c -> isspace c = false) ->
  contains EQUALS key = false ->
  startswith HASH (ws1 ++ key) = false ->
  assignment (ws1 ++ key ++ EQUALS :: value ++ ws2) = Some (key, value).
Proof.
  intros Hw1 Hw2 Hk Hhead Hlast He Hh.
  assert (strip (ws1 ++ key ++ EQUALS :: value ++ ws2)
          = key ++ EQUALS :: value) as Hs.
  { unfold strip. rewrite lstrip_spaces by done.
    rewrite lstrip_fixed.
    2:{ intros c Hc. apply Hhead. by destruct key. }
    replace (key ++ EQUALS :: value ++ ws2)
      with ((key ++ EQUALS :: value) ++ ws2) by (by rewrite <- app_assoc).
    rewrite rstrip_spaces by done. apply rstrip_fixed.
    intros c Hc. rewrite last_app in Hc. simpl in Hc.
    destruct value as [|v value]; simpl in Hc.
    - by inversion Hc.
    - apply Hlast. rewrite last_cons in Hc.
      destruct (last value) eqn:Hl; simpl in *; [by rewrite last_cons, Hl|].
      by rewrite last_cons, Hl. }
  unfold assignment. rewrite Hs.
  assert (truthy (key ++ EQUALS :: value) = true) as -> by (by destruct key).
  assert (startswith HASH (ws1 ++ key ++ EQUALS :: value ++ ws2) = false) as ->.
  { destruct ws1 as [|c ws1]; simpl in *; [|done]. by destruct key. }
  assert (contains EQUALS (ws1 ++ key ++ EQUALS :: value ++ ws2) = true) as ->.
  { rewrite !contains_app. simpl. by rewrite !orb_true_r. }
  simpl. by apply cut_Some.
Qed.

(** X1. Round trip through one line: a line that holds [key=value],
    possibly with blanks before the key and after the value (the line
    end among them), makes [os.environ.get(key)] return exactly [value].
    The value may hold ['='] itself; only the first one separates. *)
Theorem dotenv_line_round_trip (ws1 key value ws2 : str) (st : state) :
  Forall (fun c => isspace c = true) ws1 ->
  Forall (fun c => isspace c = true) ws2 ->
  key <> [] ->
  (forall c, head key = Some c -> isspace c = false) ->
  (forall c, last value = Some c -> isspace c = false) ->
  contains EQUALS key = false ->
  startswith HASH (ws1 ++ key) = false ->
  contains NUL key = false -> contains NUL value = false ->
  bind (load_line (ws1 ++ key ++ EQUALS :: value ++ ws2))
    (fun _ => environ_get key) st
  = (Ok (Some value), State (<[key := value]> (environ st)) (trace st)).
Proof.
  intros Hw1 Hw2 Hk Hhead Hlast He Hh Hn1 Hn2.
  unfold bind. rewrite load_line_assignment.
  rewrite (assignment_padded ws1 key value ws2) by done.
  rewrite environ_setitem_Ok by done.
  unfold environ_get. simpl. by rewrite lookup_insert_eq.
Qed.

Lemma dotenv_line_round_trip_witness :
  bind (load_line ([32] ++ lit "TOKEN" ++ EQUALS :: lit "a=b c" ++ [CR; LF]))
    (fun _ => environ_get (lit "TOKEN")) (State ∅ [])
  = (Ok (Some (lit "a=b c")),
     State (<[lit "TOKEN" := lit "a=b c"]> ∅) []).
Proof.
  apply (dotenv_line_round_trip [32] (lit "TOKEN") (lit "a=b c") [CR; LF]
           (State ∅ [])).
  - repeat constructor.
  - repeat constructor.
  - discriminate.
  - intros c [= <-]. reflexivity.
  - intros c [= <-]. reflexivity.
  - reflexivity.
  - reflexivity.
  - reflexivity.
  - reflexivity.
Defined.

(** ** The loader, file by file *)

Lemma for_each_load_acceptable (ls : list str) (st : state) :
  Forall (fun kv => acceptable kv = true) (omap assignment ls) ->
  for_each ls load_line st
  = (Ok tt, State (assign_all (environ st) (omap assignment ls)) (trace st)).
Proof.
  revert st. induction ls as [|l ls IH]; intros st H; simpl.
  - by destruct st.
  - unfold bind. rewrite load_line_assignment.
    simpl in H. destruct (assignment l) as [[key value]|] eqn:Ha; simpl in *.
    + apply Forall_cons in H as [H1 H2].
      rewrite acceptable_setitem;
        [|done | by apply (assignment_Some l key value)].
      by rewrite IH.
    + by rewrite IH.
Qed.

Lemma loaded_opened (w : world) (env : gmap str str) (f : iterator str) :
  open_dotenv w = inr f ->
  loaded w env
  = (try_except (for_in f load_line)
       (fun e => print (lit "Warning: Could not load .env: " ++ exn_text e))
       (State env [])).2.
Proof.
  intros Ho. unfold loaded, load_dotenv, try_except, bind, lift.
  by rewrite Ho.
Qed.

Lemma assign_all_other (env : gmap str str) (kvs : list (str * str)) (k : str) :
  (forall v, (k, v) ∉ kvs) -> assign_all env kvs !! k = env !! k.
Proof.
  revert env. induction kvs as [|[k' v'] kvs IH]; intros env H; simpl; [done|].
  unfold assign_all in *. simpl. rewrite IH.
  - apply lookup_insert_ne. intros ->. apply (H v'). left.
  - intros v Hin. apply (H v). by right.
Qed.

(** X2. A file that is read to its end and whose assignments the
    environment accepts is loaded as the fold of its assignments, in the
    order of the lines, over the environment the process started with;
    nothing is printed. *)
Theorem loader_folds_assignments
    (w : world) (env : gmap str str) (f : iterator str) :
  open_dotenv w = inr f -> failure f = None ->
  Forall (fun kv => acceptable kv = true) (omap assignment (items f)) ->
  loaded w env = State (assign_all env (omap assignment (items f))) [].
Proof.
  intros Ho Hf Ha. rewrite (loaded_opened w env f Ho).
  unfold try_except, for_in, bind.
  rewrite for_each_load_acceptable by done. by rewrite Hf.
Qed.

Lemma loader_folds_assignments_witness :
  loaded (mock dotenv_abc123 sse_endpoint) ∅
  = State (assign_all ∅ (omap assignment
                           (readlines (lit "# credentials" ++ [LF]
                              ++ lit "NVIDIA_API_KEY_KIMI=abc123" ++ [LF]))))
      [].
Proof.
  apply (loader_folds_assignments (mock dotenv_abc123 sse_endpoint) ∅
           (Iterator (readlines (lit "# credentials" ++ [LF]
                        ++ lit "NVIDIA_API_KEY_KIMI=abc123" ++ [LF])) None)).
  - reflexivity.
  - reflexivity.
  - repeat constructor.
Defined.

(** X3. The last line that assigns a name decides: in such a file, the
    variable holds the value of the last line that names it, whatever
    earlier lines and the inherited environment gave it. *)
Theorem last_assignment_wins
    (w : world) (env : gmap str str) (f : iterator str)
    (before after : list str) (line key value : str) :
  open_dotenv w = inr f -> failure f = None ->
  Forall (fun kv => acceptable kv = true) (omap assignment (items f)) ->
  items f = before ++ line :: after ->
  assignment line = Some (key, value) ->
  (forall l v, l ∈ after -> assignment l <> Some (key, v)) ->
  environ (loaded w env) !! key = Some value.
Proof.
  intros Ho Hf Ha Hi Hl Hafter.
  rewrite (loader_folds_assignments w env f Ho Hf Ha). simpl.
  rewrite Hi, omap_app. simpl. rewrite Hl.
  unfold assign_all. rewrite foldl_app. simpl.
  fold (assign_all (<[key:=value]> (foldl (fun m kv => <[kv.1:=kv.2]> m) env
                                      (omap assignment before)))
          (omap assignment after)).
  rewrite assign_all_other; [apply lookup_insert_eq|].
  intros v Hin. apply list_elem_of_omap in Hin as (l & Hin & Hl').
  by apply (Hafter l v).
Qed.

Lemma last_assignment_wins_witness :
  environ
    (loaded (mock (file_of_text (lit "K=old" ++ [LF] ++ lit "K=new" ++ [LF]
                                 ++ lit "J=1" ++ [LF])) sse_endpoint)
       {[ lit "K" := lit "inherited" ]})
  !! lit "K" = Some (lit "new").
Proof.
  apply (last_assignment_wins
           (mock (file_of_text (lit "K=old" ++ [LF] ++ lit "K=new" ++ [LF]
                                ++ lit "J=1" ++ [LF])) sse_endpoint)
           {[ lit "K" := lit "inherited" ]}
           (Iterator [lit "K=old" ++ [LF]; lit "K=new" ++ [LF];
                      lit "J=1" ++ [LF]] None)
           [lit "K=old" ++ [LF]] [lit "J=1" ++ [LF]] (lit "K=new" ++ [LF])
           (lit "K") (lit "new")).
  - reflexivity.
  - reflexivity.
  - repeat constructor.
  - reflexivity.
  - reflexivity.
  - intros l v Hl. apply list_elem_of_singleton in Hl as ->.
    vm_compute. discriminate.
Defined.

Lemma unacceptable_setitem (key value : str) (st : state) :
  acceptable (key, value) = false ->
  exists msg, environ_setitem key value st
              = (Raised (Exn "ValueError" msg), st).
Proof.
  unfold acceptable, environ_setitem. simpl. intros H.
  destruct (contains NUL key) eqn:H1; simpl; [eauto|].
  destruct (contains NUL value) eqn:H2; simpl; [eauto|].
  destruct key; simpl in *; [eauto | done].
Qed.

(** X4. The loader gives up at the first assignment the environment
    refuses (an empty name, as in a line [=value], or a NUL): the lines
    before it stay loaded, the lines after it are not looked at, and one
    warning is printed. *)
Theorem loader_stops_at_refused_line
    (w : world) (env : gmap str str) (f : iterator str)
    (before after : list str) (line key value : str) :
  open_dotenv w = inr f ->
  items f = before ++ line :: after ->
  Forall (fun kv => acceptable kv = true) (omap assignment before) ->
  assignment line = Some (key, value) ->
  acceptable (key, value) = false ->
  exists msg,
    loaded w env
    = State (assign_all env (omap assignment before))
        [Print (lit "Warning: Could not load .env: " ++ msg)].
Proof.
  intros Ho Hi Hb Hl Hr. rewrite (loaded_opened w env f Ho).
  unfold try_except, for_in, bind. rewrite Hi, for_each_app. unfold bind.
  rewrite for_each_load_acceptable by done. simpl. unfold bind.
  rewrite load_line_assignment, Hl.
  destruct (unacceptable_setitem key value
              (State (assign_all env (omap assignment before)) []) Hr)
    as [msg ->].
  by exists msg.
Qed.

Lemma loader_stops_at_refused_line_witness :
  exists msg,
    loaded (mock (file_of_text (lit "A=1" ++ [LF] ++ lit "=oops" ++ [LF]
                    ++ lit "NVIDIA_API_KEY_KIMI=abc123" ++ [LF]))
              sse_endpoint) ∅
    = State (assign_all ∅ (omap assignment [lit "A=1" ++ [LF]]))
        [Print (lit "Warning: Could not load .env: " ++ msg)].
Proof.
  apply (loader_stops_at_refused_line
           (mock (file_of_text (lit "A=1" ++ [LF] ++ lit "=oops" ++ [LF]
                    ++ lit "NVIDIA_API_KEY_KIMI=abc123" ++ [LF]))
              sse_endpoint) ∅
           (Iterator [lit "A=1" ++ [LF]; lit "=oops" ++ [LF];
                      lit "NVIDIA_API_KEY_KIMI=abc123" ++ [LF]] None)
           [lit "A=1" ++ [LF]] [lit "NVIDIA_API_KEY_KIMI=abc123" ++ [LF]]
           (lit "=oops" ++ [LF]) [] (lit "oops")).
  - reflexivity.
  - reflexivity.
  - repeat constructor.
  - reflexivity.
  - reflexivity.
Defined.

(** ** What the loader leaves alone *)

(** One step of the loop either leaves the environment as it is or
    inserts the assignment of the line. *)
Lemma load_line_step (line : str) (st : state) :
  environ (load_line line st).2 = environ st
  \/ exists key value,
       assignment line = Some (key, value)
       /\ environ (load_line line st).2 = <[key := value]> (environ st).
Proof.
  rewrite load_line_assignment.
  destruct (assignment line) as [[key value]|]; [|by left].
  unfold environ_setitem.
  repeat match goal with
         | |- context [if ?b then _ else _] => destruct b
         end; simpl; eauto.
Qed.

Lemma for_each_load_step (ls : list str) (st : state) (k : str) :
  (environ (for_each ls load_line st).2 !! k = environ st !! k
   \/ exists l v, l ∈ ls /\ assignment l = Some (k, v)
                  /\ environ (for_each ls load_line st).2 !! k = Some v)
  /\ (is_Some (environ st !! k) ->
      is_Some (environ (for_each ls load_line st).2 !! k)).
Proof.
  revert st. induction ls as [|l ls IH]; intros st; simpl; [by split; [left|]|].
  unfold bind.
  destruct (load_line_step l st) as [He | (key & value & Ha & He)];
    destruct (load_line l st) as [[[]|e|c] st1] eqn:Hl; simpl in *.
  - destruct (IH st1) as [[H1 | (l' & v & Hin & Ha' & H1)] H2]; rewrite He in *.
    + split; [by left | done].
    + split; [|done]. right. exists l', v. split; [by right | done].
  - rewrite He. split; [by left | done].
  - rewrite He. split; [by left | done].
  - destruct (IH st1) as [[H1 | (l' & v & Hin & Ha' & H1)] H2]; rewrite He in *.
    + destruct (decide (key = k)) as [->|Hne].
      * split.
        -- right. exists l, value. split; [by left|]. split; [done|].
           by rewrite H1, lookup_insert_eq.
        -- intros _. apply H2. rewrite lookup_insert_eq. eauto.
      * rewrite lookup_insert_ne in * by done. split; [by left | done].
    + split.
      * right. exists l', v. split; [by right | done].
      * intros _. rewrite H1. eauto.
  - rewrite He. destruct (decide (key = k)) as [->|Hne].
    + split.
      * right. exists l, value. split; [by left|]. split; [done|].
        apply lookup_insert_eq.
      * intros _. rewrite lookup_insert_eq. eauto.
    + rewrite lookup_insert_ne by done. split; [by left | done].
  - rewrite He. destruct (decide (key = k)) as [->|Hne].
    + split.
      * right. exists l, value. split; [by left|]. split; [done|].
        apply lookup_insert_eq.
      * intros _. rewrite lookup_insert_eq. eauto.
    + rewrite lookup_insert_ne by done. split; [by left | done].
Qed.

(** The environment after the loading step is the one the loop over the
    lines left, whatever ended it. *)
Lemma loaded_environ (w : world) (env : gmap str str) :
  environ (loaded w env)
  = match open_dotenv w with
    | inl _ => env
    | inr f => environ (for_each (items f) load_line (State env [])).2
    end.
Proof.
  unfold loaded, load_dotenv, try_except, bind, lift.
  destruct (open_dotenv w) as [e|f]; simpl; [done|].
  unfold for_in, bind.
  destruct (for_each (items f) load_line (State env [])) as [[[]|e|c] st];
    simpl; [|done..].
  by destruct (failure f).
Qed.

(** ** The environment during the request *)

Lemma for_each_render_environ (w : world) (ls : list bytes) (st : state) :
  environ (for_each ls (render_line w) st).2 = environ st.
Proof.
  revert st. induction ls as [|l ls IH]; intros st; simpl; [done|].
  unfold bind, render_line. destruct (truthy l); simpl; [|apply IH].
  unfold bind, decode_line. destruct (decode l); simpl; [|done].
  by rewrite IH.
Qed.

Lemma request_and_render_environ
    (w : world) (s : bool) (api_key : str) (st : state) :
  environ (request_and_render w s api_key st).2 = environ st.
Proof.
  unfold request_and_render, bind, requests_post.
  destruct (http_post w (post_request s api_key)) as [e|resp]; simpl; [done|].
  unfold raise_for_status.
  repeat match goal with
         | |- context [if ?b then _ else _] => destruct b; simpl; try done
         end.
  - unfold for_in, bind.
    pose proof (for_each_render_environ w (items (iter_lines resp))
                  (State (environ st)
                     (trace st ++ [Post (post_request true api_key)]))) as H.
    destruct (for_each _ _ _) as [[[]|e|c] st1]; simpl in *; [|done..].
    by destruct (failure (iter_lines resp)).
  - unfold response_json, lift, bind.
    by destruct (json_loads w (content resp)).
Qed.

(** X5. The environment is written during the loading step only: the
    credential check, the request and the rendering of the response
    leave it as the loader left it, however they end. *)
Theorem environ_is_fixed_after_loading
    (w : world) (s : bool) (env : gmap str str) :
  final_environ (run w s env) = environ (loaded w env).
Proof.
  unfold run, script, bind. rewrite load_dotenv_loaded.
  unfold resolve_and_request, bind, environ_get. simpl.
  destruct (environ (loaded w env) !! lit "NVIDIA_API_KEY_KIMI")
    as [[|c k]|]; simpl; [done| |done].
  unfold try_except.
  pose proof (request_and_render_environ w s (c :: k)
                (State (environ (loaded w env))
                   (trace (loaded w env) ++ [Print (banner (c :: k))]))) as H.
  destruct (request_and_render _ _ _ _) as [[[]|e|code] st1]; simpl in *; done.
Qed.

(** X6. A run changes only the variables that some line of [.env]
    names: a variable for which the file holds no assignment has at the
    end of the run the value it had at the start, also when the file
    cannot be opened or the loading breaks off. *)
Theorem run_keeps_unnamed_variables
    (w : world) (s : bool) (env : gmap str str) (k : str) :
  (forall f l v, open_dotenv w = inr f -> l ∈ items f ->
                 assignment l <> Some (k, v)) ->
  final_environ (run w s env) !! k = env !! k.
Proof.
  intros H. rewrite environ_is_fixed_after_loading, loaded_environ.
  destruct (open_dotenv w) as [e|f] eqn:Ho; [done|].
  destruct (for_each_load_step (items f) (State env []) k)
    as [[H1 | (l & v & Hin & Ha & _)] _]; [done|].
  by destruct (H f l v).
Qed.

Lemma run_keeps_unnamed_variables_witness :
  final_environ (main (mock dotenv_abc123 sse_endpoint)
                   {[ lit "HOME" := lit "/root" ]})
  !! lit "HOME"
  = ({[ lit "HOME" := lit "/root" ]} : gmap str str) !! lit "HOME".
Proof.
  apply (run_keeps_unnamed_variables (mock dotenv_abc123 sse_endpoint)
           stream {[ lit "HOME" := lit "/root" ]} (lit "HOME")).
  intros f l v Ho Hl.
  assert (f = Iterator [lit "# credentials" ++ [LF];
                        lit "NVIDIA_API_KEY_KIMI=abc123" ++ [LF]] None) as ->.
  { vm_compute in Ho. vm_compute. congruence. }
  apply elem_of_cons in Hl as [-> | Hl]; [vm_compute; discriminate|].
  apply list_elem_of_singleton in Hl as ->. vm_compute. discriminate.
Defined.

(** X7. A run never unsets a variable: what is set in the environment
    the process starts with is still set at the end. *)
Theorem run_never_unsets
    (w : world) (s : bool) (env : gmap str str) (k : str) :
  is_Some (env !! k) -> is_Some (final_environ (run w s env) !! k).
Proof.
  intros H. rewrite environ_is_fixed_after_loading, loaded_environ.
  destruct (open_dotenv w) as [e|f]; [done|].
  by apply (for_each_load_step (items f) (State env []) k).
Qed.

Lemma run_never_unsets_witness :
  is_Some (final_environ
             (main (mock dotenv_abc123 sse_endpoint)
                {[ lit "NVIDIA_API_KEY_KIMI" := lit "inherited" ]})
           !! lit "NVIDIA_API_KEY_KIMI").
Proof.
  apply (run_never_unsets (mock dotenv_abc123 sse_endpoint) stream
           {[ lit "NVIDIA_API_KEY_KIMI" := lit "inherited" ]}
           (lit "NVIDIA_API_KEY_KIMI")).
  rewrite lookup_singleton_eq. eauto.
Defined.

(** X8. What the loader writes is trimmed: whenever a line changes a
    variable, the name of that variable holds no ['='] and does not
    begin with white space, and its new value does not end with white
    space; so no line end ever becomes part of a value. *)
Theorem loaded_text_is_trimmed (line : str) (st : state) (k : str) :
  environ (load_line line st).2 !! k <> environ st !! k ->
  contains EQUALS k = false
  /\ (forall c, head k = Some c -> isspace c = false)
  /\ exists v, environ (load_line line st).2 !! k = Some v
               /\ (forall c, last v = Some c -> isspace c = false).
Proof.
  intros Hne.
  destruct (load_line_step line st) as [He | (key & value & Ha & He)];
    rewrite He in *; [done|].
  destruct (decide (key = k)) as [->|Hk];
    [|by rewrite lookup_insert_ne in Hne].
  destruct (assignment_Some line k value Ha) as [Hs Hc].
  split; [done|]. split.
  - intros c Hh. apply (strip_head line). rewrite Hs. by destruct k.
  - exists value. split; [apply lookup_insert_eq|].
    intros c Hl. apply (strip_last line). rewrite Hs.
    by rewrite last_app, last_cons, Hl.
Qed.

Lemma loaded_text_is_trimmed_witness :
  contains EQUALS (lit "TOKEN") = false
  /\ (forall c, head (lit "TOKEN") = Some c -> isspace c = false)
  /\ exists v,
       environ (load_line (lit "TOKEN= secret " ++ [CR; LF]) (State ∅ [])).2
       !! lit "TOKEN" = Some v
       /\ (forall c, last v = Some c -> isspace c = false).
Proof.
  apply (loaded_text_is_trimmed (lit "TOKEN= secret " ++ [CR; LF])
           (State ∅ []) (lit "TOKEN")).
  vm_compute. discriminate.
Defined.

(** ** Exit status and standard output *)

(** X9. The exit status tells whether the credential was there and
    nothing else: it is 1 when the variable is unset or empty after the
    loading step and 0 in every other run, whether the request
    succeeded or failed.  No run ends on an uncaught exception. *)
Theorem exit_status_reflects_credential_only
    (w : world) (s : bool) (env : gmap str str) :
  exit_status (run w s env)
  = match credential w env with
    | Some (_ :: _) => 0%Z
    | _ => 1%Z
    end.
Proof.
  destruct (credential w env) as [[|c k]|] eqn:Hc.
  - by rewrite (run_missing w s env (or_intror Hc)).
  - by destruct (run_present_shape w s env (c :: k) Hc) as (texts & _ & ->).
  - by rewrite (run_missing w s env (or_introl Hc)).
Qed.

(** X10. No more than the first ten characters of the credential reach
    standard output before the request: two runs whose loading steps
    printed the same and whose credentials agree on their first ten
    characters have the same text on standard output when the request
    is dispatched, however the credentials differ after that. *)
Theorem banner_hides_credential_tail
    (w1 w2 : world) (s1 s2 : bool) (env1 env2 : gmap str str)
    (k1 k2 : str) :
  credential w1 env1 = Some k1 -> k1 <> [] ->
  credential w2 env2 = Some k2 -> k2 <> [] ->
  trace (loaded w1 env1) = trace (loaded w2 env2) ->
  take 10%nat k1 = take 10%nat k2 ->
  stdout_before_post (events (run w1 s1 env1))
  = stdout_before_post (events (run w2 s2 env2)).
Proof.
  intros Hc1 Hk1 Hc2 Hk2 Ht Hp.
  rewrite (stdout_before_post_run w1 s1 env1 k1 Hc1 Hk1).
  rewrite (stdout_before_post_run w2 s2 env2 k2 Hc2 Hk2).
  unfold banner. by rewrite Ht, Hp.
Qed.

Lemma banner_hides_credential_tail_witness :
  stdout_before_post
    (events (main (mock no_dotenv sse_endpoint)
               {[ lit "NVIDIA_API_KEY_KIMI" := lit "nvapi-0123-first" ]}))
  = stdout_before_post
      (events (run (mock no_dotenv timeout_endpoint) false
                 {[ lit "NVIDIA_API_KEY_KIMI" := lit "nvapi-0123-second" ]})).
Proof.
  apply (banner_hides_credential_tail
           (mock no_dotenv sse_endpoint) (mock no_dotenv timeout_endpoint)
           stream false
           {[ lit "NVIDIA_API_KEY_KIMI" := lit "nvapi-0123-first" ]}
           {[ lit "NVIDIA_API_KEY_KIMI" := lit "nvapi-0123-second" ]}
           (lit "nvapi-0123-first") (lit "nvapi-0123-second")).
  - reflexivity.
  - discriminate.
  - reflexivity.
  - discriminate.
  - reflexivity.
  - reflexivity.
Defined.

(** ** The streaming loop *)

Lemma for_each_render_filter (w : world) (ls : list bytes) (st : state) :
  for_each (List.filter truthy ls) (render_line w) st
  = for_each ls (render_line w) st.
Proof.
  revert st. induction ls as [|l ls IH]; intros st; simpl; [done|].
  destruct (truthy l) eqn:Hl; simpl.
  - unfold bind. destruct (render_line w l st) as [[[]|e|c] st1]; [|done..].
    apply IH.
  - unfold bind, render_line. rewrite Hl. simpl. apply IH.
Qed.

(** X11. Empty lines in the stream (the blank lines between events, keep
    alive lines) do not show: the run is the same as for the response
    with these lines taken out, in what it prints, in where it stops
    and in its exit status. *)
Theorem empty_lines_do_not_show
    (w : world) (env : gmap str str) (api_key : str) (resp : response) :
  credential w env = Some api_key -> api_key <> [] ->
  http_post w (post_request stream api_key) = inr resp ->
  main w env
  = main (World (open_dotenv w)
            (fun _ => inr (Response (status_code resp) (reason resp)
                             (url resp) (content resp)
                             (Iterator
                                (List.filter truthy (items (iter_lines resp)))
                                (failure (iter_lines resp)))))
            (json_loads w) (py_str w) (utf8_error_text w)) env.
Proof.
  intros Hc Hk Hp. unfold main, stream in *.
  rewrite (run_present w true env api_key Hc Hk).
  rewrite (run_present
             (World (open_dotenv w)
                (fun _ => inr (Response (status_code resp) (reason resp)
                                 (url resp) (content resp)
                                 (Iterator
                                    (List.filter truthy
                                       (items (iter_lines resp)))
                                    (failure (iter_lines resp)))))
                (json_loads w) (py_str w) (utf8_error_text w))
             true env api_key Hc Hk).
  assert (forall st,
            request_and_render w true api_key st
            = request_and_render
                (World (open_dotenv w)
                   (fun _ => inr (Response (status_code resp) (reason resp)
                                    (url resp) (content resp)
                                    (Iterator
                                       (List.filter truthy
                                          (items (iter_lines resp)))
                                       (failure (iter_lines resp)))))
                   (json_loads w) (py_str w) (utf8_error_text w))
                true api_key st) as Hr.
  { intros st. unfold request_and_render, bind, requests_post. rewrite Hp.
    simpl. unfold raise_for_status. simpl.
    repeat match goal with
           | |- context [if ?b then _ else _] => destruct b; simpl; try done
           end.
    unfold for_in, bind. simpl.
    by rewrite <- (for_each_render_filter w). }
  unfold try_except. by rewrite Hr.
Qed.

Lemma empty_lines_do_not_show_witness :
  main (mock dotenv_abc123 sse_endpoint) ∅
  = main (World dotenv_abc123
            (fun _ => inr (Response 200 (lit "OK") invoke_url []
                             (Iterator [data_line "1"; data_line "2"] None)))
            mock_json_loads simple_str
            (fun _ => lit "'utf-8' codec can't decode bytes")) ∅.
Proof.
  apply (empty_lines_do_not_show (mock dotenv_abc123 sse_endpoint) ∅
           (lit "abc123")
           (Response 200 (lit "OK") invoke_url []
              (Iterator [data_line "1"; []; data_line "2"] None))).
  - reflexivity.
  - discriminate.
  - reflexivity.
Defined.

(** X12. A line that is not UTF-8 ends the streaming loop: the lines
    that arrived before it are printed, then the error of the decoder,
    and none of the lines after it; the exit status is still 0. *)
Theorem undecodable_line_ends_the_stream
    (w : world) (env : gmap str str) (api_key : str) (resp : response)
    (before after : list bytes) (line : bytes) (texts : list str) :
  credential w env = Some api_key -> api_key <> [] ->
  http_post w (post_request stream api_key) = inr resp ->
  http_error_status (status_code resp) = false ->
  items (iter_lines resp) = before ++ line :: after ->
  mapM decode (List.filter truthy before) = Some texts ->
  line <> [] -> decode line = None ->
  events (main w env)
  = trace (loaded w env)
    ++ [Print (banner api_key); Post (post_request stream api_key)]
    ++ map Print texts
    ++ [Print (lit "Error: " ++ utf8_error_text w line)]
  /\ exit_status (main w env) = 0%Z.
Proof.
  intros Hc Hk Hp Hs Hi Hb Hl Hd. unfold main, stream in *.
  erewrite run_caught; [|done..|].
  2:{ unfold request_and_render, bind, requests_post. rewrite Hp. simpl.
      rewrite raise_for_status_success by done.
      unfold for_in, bind. rewrite Hi.
      by rewrite (for_each_render_line_undecodable w _ _ _ texts). }
  simpl. by rewrite <- !app_assoc.
Qed.

Lemma undecodable_line_ends_the_stream_witness :
  printed (events (main (mock dotenv_abc123 garbled_endpoint) ∅))
  = [ lit "Testing Kimi with Python requests (Key: abc123...)...";
      data_text "1";
      lit "Error: 'utf-8' codec can't decode bytes" ]
  /\ exit_status (main (mock dotenv_abc123 garbled_endpoint) ∅) = 0%Z.
Proof.
  destruct (undecodable_line_ends_the_stream
              (mock dotenv_abc123 garbled_endpoint) ∅ (lit "abc123")
              (Response 200 (lit "OK") invoke_url []
                 (Iterator [data_line "1"; [Byte.xff; Byte.xfe]; data_line "2"]
                    None))
              [data_line "1"] [data_line "2"] [Byte.xff; Byte.xfe]
              [data_text "1"])
    as [He Hx];
    [reflexivity | discriminate | reflexivity | reflexivity | reflexivity
    | reflexivity | discriminate | reflexivity |].
  rewrite He, Hx. split; reflexivity.
Defined.

(** X13. When the stream breaks off, every line that arrived is printed
    before the error: nothing received is lost. *)
Theorem broken_stream_prints_what_arrived
    (w : world) (env : gmap str str) (api_key : str) (resp : response)
    (texts : list str) (e : exn) :
  credential w env = Some api_key -> api_key <> [] ->
  http_post w (post_request stream api_key) = inr resp ->
  http_error_status (status_code resp) = false ->
  mapM decode (List.filter truthy (items (iter_lines resp))) = Some texts ->
  failure (iter_lines resp) = Some e ->
  events (main w env)
  = trace (loaded w env)
    ++ [Print (banner api_key); Post (post_request stream api_key)]
    ++ map Print texts
    ++ [Print (lit "Error: " ++ exn_text e)]
  /\ exit_status (main w env) = 0%Z.
Proof.
  intros Hc Hk Hp Hs Hd Hf. unfold main, stream in *.
  erewrite run_caught; [|done..|].
  2:{ unfold request_and_render, bind, requests_post. rewrite Hp. simpl.
      rewrite raise_for_status_success by done.
      unfold for_in, bind. rewrite (for_each_render_line w _ texts) by done.
      by rewrite Hf. }
  simpl. by rewrite <- !app_assoc.
Qed.

Lemma broken_stream_prints_what_arrived_witness :
  printed (events (main (mock dotenv_abc123 dropped_endpoint) ∅))
  = [ lit "Testing Kimi with Python requests (Key: abc123...)...";
      data_text "1";
      lit "Error: Connection broken" ]
  /\ exit_status (main (mock dotenv_abc123 dropped_endpoint) ∅) = 0%Z.
Proof.
  destruct (broken_stream_prints_what_arrived
              (mock dotenv_abc123 dropped_endpoint) ∅ (lit "abc123")
              (Response 200 (lit "OK") invoke_url []
                 (Iterator [data_line "1"]
                    (Some (Exn "ChunkedEncodingError"
                             (lit "Connection broken")))))
              [data_text "1"]
              (Exn "ChunkedEncodingError" (lit "Connection broken")))
    as [He Hx];
    [reflexivity | discriminate | reflexivity | reflexivity | reflexivity
    | reflexivity |].
  rewrite He, Hx. split; reflexivity.
Defined.

Lemma utf8_decode_ascii (bs : list N) :
  Forall (fun b => b < 128) bs -> utf8_decode bs = Some bs.
Proof.
  induction 1 as [|b bs Hb _ IH]; simpl; [done|].
  apply N.ltb_lt in Hb. by rewrite Hb, IH.
Qed.

Lemma decoded_lines_ascii (ls : list bytes) :
  Forall (Forall (fun b => Byte.to_N b < 128)) ls ->
  decoded_lines ls = Some (map (map Byte.to_N) (List.filter truthy ls)).
Proof.
  unfold decoded_lines. induction 1 as [|l ls Hl _ IH]; simpl; [done|].
  destruct (truthy l); simpl; [|done].
  unfold decode in *. rewrite utf8_decode_ascii by (by apply Forall_fmap).
  simpl. by rewrite IH.
Qed.

(** X14. A stream of ASCII lines cannot fail in the decoder and is
    printed byte for byte: when it arrives to its end, the run prints
    after the banner the non-empty lines with every byte as the
    character of the same code, and ends with status 0. *)
Theorem ascii_stream_is_printed_byte_for_byte
    (w : world) (env : gmap str str) (api_key : str) (resp : response) :
  credential w env = Some api_key -> api_key <> [] ->
  http_post w (post_request stream api_key) = inr resp ->
  http_error_status (status_code resp) = false ->
  failure (iter_lines resp) = None ->
  Forall (Forall (fun b => Byte.to_N b < 128)) (items (iter_lines resp)) ->
  events (main w env)
  = trace (loaded w env)
    ++ [Print (banner api_key); Post (post_request stream api_key)]
    ++ map (fun l => Print (map Byte.to_N l))
         (List.filter truthy (items (iter_lines resp)))
  /\ exit_status (main w env) = 0%Z.
Proof.
  intros Hc Hk Hp Hs Hf Ha. unfold main, stream in *.
  rewrite (run_streamed w env api_key resp _ Hc Hk Hp Hs Hf
             (decoded_lines_ascii _ Ha)).
  simpl. by rewrite map_map.
Qed.

Lemma ascii_stream_is_printed_byte_for_byte_witness :
  printed (events (main (mock dotenv_abc123 sse_endpoint) ∅))
  = [ lit "Testing Kimi with Python requests (Key: abc123...)...";
      map Byte.to_N (data_line "1"); map Byte.to_N (data_line "2") ]
  /\ exit_status (main (mock dotenv_abc123 sse_endpoint) ∅) = 0%Z.
Proof.
  destruct (ascii_stream_is_printed_byte_for_byte
              (mock dotenv_abc123 sse_endpoint) ∅ (lit "abc123")
              (Response 200 (lit "OK") invoke_url []
                 (Iterator [data_line "1"; []; data_line "2"] None)))
    as [He Hx];
    [reflexivity | discriminate | reflexivity | reflexivity | reflexivity
    | repeat constructor |].
  rewrite He, Hx. split; reflexivity.
Defined.

(** ** The non-streaming branch *)

(** X15. In non-streaming mode a body that is not JSON gives the error
    of the JSON decoder and nothing else: after the banner the run
    prints the one line [Error: ...], nothing of the body, and ends with
    status 0. *)
Theorem malformed_json_prints_only_the_error
    (w : world) (env : gmap str str) (api_key : str) (resp : response)
    (e : exn) :
  credential w env = Some api_key -> api_key <> [] ->
  http_post w (post_request false api_key) = inr resp ->
  http_error_status (status_code resp) = false ->
  json_loads w (content resp) = inl e ->
  events (run w false env)
  = trace (loaded w env)
    ++ [Print (banner api_key); Post (post_request false api_key);
        Print (lit "Error: " ++ exn_text e)]
  /\ exit_status (run w false env) = 0%Z.
Proof.
  intros Hc Hk Hp Hs Hj.
  erewrite run_caught; [|done..|].
  2:{ unfold request_and_render, bind, requests_post. rewrite Hp. simpl.
      rewrite raise_for_status_success by done.
      unfold response_json, lift, bind. by rewrite Hj. }
  simpl. by rewrite <- !app_assoc.
Qed.

Lemma malformed_json_prints_only_the_error_witness :
  printed (events (run (mock dotenv_abc123 html_endpoint) false ∅))
  = [ lit "Testing Kimi with Python requests (Key: abc123...)...";
      lit "Error: Expecting value: line 1 column 1 (char 0)" ]
  /\ exit_status (run (mock dotenv_abc123 html_endpoint) false ∅) = 0%Z.
Proof.
  destruct (malformed_json_prints_only_the_error
              (mock dotenv_abc123 html_endpoint) ∅ (lit "abc123")
              (Response 200 (lit "OK") invoke_url (blit "<html>")
                 (Iterator [blit "<html>"] None))
              (Exn "JSONDecodeError"
                 (lit "Expecting value: line 1 column 1 (char 0)")))
    as [He Hx];
    [reflexivity | discriminate | reflexivity | reflexivity | reflexivity |].
  rewrite He, Hx. split; reflexivity.
Defined.

(** ** The decoder *)

Ltac unbool :=
  repeat match goal with
         | H : _ && _ = true |- _ => apply andb_true_iff in H as [? ?]
         | H : (_ <=? _) = true |- _ => apply N.leb_le in H
         | H : (_ <? _) = true |- _ => apply N.ltb_lt in H
         | H : (_ <? _) = false |- _ => apply N.ltb_ge in H
         | H : (_ =? _) = true |- _ => apply N.eqb_eq in H
         | H : (_ =? _) = false |- _ => apply N.eqb_neq in H
         end.

Lemma utf8_decode_scalar (n : nat) (bs : list N) (cs : str) :
  (length bs <= n)%nat -> utf8_decode bs = Some cs ->
  Forall scalar_value cs.
Proof.
  revert bs cs. induction n as [|n IH]; intros bs cs Hlen H.
  { destruct bs; [|simpl in Hlen; lia]. inversion H. constructor. }
  destruct bs as [|b0 r0]; [inversion H; constructor|].
  simpl in H, Hlen.
  destruct (b0 <? 128) eqn:H0.
  { apply fmap_Some in H as (cs' & Hd & ->). constructor.
    - unfold scalar_value. unbool. lia.
    - apply (IH r0); [lia | done]. }
  destruct (in_range 194 223 b0) eqn:H1.
  { destruct r0 as [|b1 r1]; [done|].
    destruct (is_cont b1) eqn:Hc1; [|done].
    apply fmap_Some in H as (cs' & Hd & ->). constructor.
    - unfold scalar_value, in_range, is_cont in *. unbool. lia.
    - apply (IH r1); [simpl in Hlen; lia | done]. }
  destruct (in_range 224 239 b0) eqn:H2.
  { destruct r0 as [|b1 [|b2 r2]]; [done..|].
    destruct (in_range _ _ b1 && is_cont b2) eqn:Hc; [|done].
    apply fmap_Some in H as (cs' & Hd & ->). constructor.
    - destruct (b0 =? 224) eqn:E1; destruct (b0 =? 237) eqn:E2;
        unfold scalar_value, in_range, is_cont in *; unbool; lia.
    - apply (IH r2); [simpl in Hlen; lia | done]. }
  destruct (in_range 240 244 b0) eqn:H3; [|done].
  destruct r0 as [|b1 [|b2 [|b3 r3]]]; [done..|].
  destruct (in_range _ _ b1 && is_cont b2 && is_cont b3) eqn:Hc; [|done].
  apply fmap_Some in H as (cs' & Hd & ->). constructor.
  - destruct (b0 =? 240) eqn:E1; destruct (b0 =? 244) eqn:E2;
      unfold scalar_value, in_range, is_cont in *; unbool; lia.
  - apply (IH r3); [simpl in Hlen; lia | done].
Qed.

(** X16. What the streaming loop prints is well-formed text: every
    character of a decoded line is a Unicode scalar value, at most
    U+10FFFF and no surrogate; a line that would give anything else is
    refused by the decoder. *)
Theorem decoded_line_holds_scalar_values (line : bytes) (text : str) :
  decode line = Some text -> Forall scalar_value text.
Proof.
  unfold decode. intros H.
  by apply (utf8_decode_scalar (length (map Byte.to_N line)) _ _ (le_n _)).
Qed.

Lemma decoded_line_holds_scalar_values_witness :
  Forall scalar_value [8364; 97].
Proof.
  apply (decoded_line_holds_scalar_values
           [Byte.xe2; Byte.x82; Byte.xac; Byte.x61] [8364; 97]).
  reflexivity.
Defined.

(** ** From the text of the file to the environment *)

Lemma readlines_from_plain (s cur rest : str) :
  contains LF s = false -> contains CR s = false ->
  readlines_from cur (s ++ rest) = readlines_from (rev s ++ cur) rest.
Proof.
  revert cur. induction s as [|c s IH]; intros cur Hl Hc; simpl in *; [done|].
  apply orb_false_iff in Hl as [Hl1 Hl2].
  apply orb_false_iff in Hc as [Hc1 Hc2].
  rewrite Hl1, Hc1, IH by done. by rewrite <- app_assoc.
Qed.

(** A text of one line, with any of the line ends or none, is read as
    that line, its end given as a line feed. *)
Lemma readlines_one_line (s eol : str) :
  s <> [] -> contains LF s = false -> contains CR s = false ->
  eol = [] \/ eol = [LF] \/ eol = [CR; LF] \/ eol = [CR] ->
  exists ws, readlines (s ++ eol) = [s ++ ws]
             /\ Forall (fun c => isspace c = true) ws.
Proof.
  intros Hs Hl Hc Heol. unfold readlines.
  rewrite readlines_from_plain, app_nil_r by done.
  destruct Heol as [-> | [-> | [-> | ->]]]; simpl.
  - exists []. rewrite app_nil_r.
    destruct (rev s) eqn:Hr; [|by rewrite <- Hr, rev_involutive].
    apply (f_equal (@rev N)) in Hr. rewrite rev_involutive in Hr. done.
  - exists [LF]. rewrite rev_involutive. by repeat constructor.
  - exists [LF]. rewrite rev_involutive. by repeat constructor.
  - exists [LF]. rewrite rev_involutive. by repeat constructor.
Qed.

(** X17. From the text of the file to the variable: when [.env] holds
    the single line [key=value], ended by a line feed, a carriage
    return, both or nothing, the variable [key] holds exactly [value]
    after the loading step, whatever the process inherited, and nothing
    was printed. *)
Theorem one_line_file_sets_the_variable
    (w : world) (env : gmap str str) (key value eol : str) :
  open_dotenv w = file_of_text (key ++ EQUALS :: value ++ eol) ->
  eol = [] \/ eol = [LF] \/ eol = [CR; LF] \/ eol = [CR] ->
  key <> [] ->
  (forall c, head key = Some c -> isspace c = false /\ c <> HASH) ->
  (forall c, last value = Some c -> isspace c = false) ->
  contains EQUALS key = false ->
  contains NUL key = false -> contains NUL value = false ->
  contains LF key = false -> contains CR key = false ->
  contains LF value = false -> contains CR value = false ->
  loaded w env = State (<[key := value]> env) [].
Proof.
  intros Ho Heol Hk Hhead Hlast He Hn1 Hn2 Hl1 Hc1 Hl2 Hc2.
  destruct (readlines_one_line (key ++ EQUALS :: value) eol)
    as (ws & Hr & Hws); [by destruct key | | | done |].
  { rewrite contains_app. simpl. by rewrite Hl1, Hl2. }
  { rewrite contains_app. simpl. by rewrite Hc1, Hc2. }
  assert (assignment ((key ++ EQUALS :: value) ++ ws) = Some (key, value)) as Ha.
  { rewrite <- app_assoc. simpl.
    apply (assignment_padded [] key value ws); try done.
    - intros c Hc. by apply Hhead.
    - simpl. destruct key as [|c key]; [done|]. simpl.
      destruct (Hhead c eq_refl) as [_ Hne]. by apply N.eqb_neq. }
  assert (omap assignment (readlines (key ++ EQUALS :: value ++ eol))
          = [(key, value)]) as Hitems.
  { replace (key ++ EQUALS :: value ++ eol)
      with ((key ++ EQUALS :: value) ++ eol) by (by rewrite <- app_assoc).
    rewrite Hr.
    change (omap assignment [(key ++ EQUALS :: value) ++ ws])
      with (match assignment ((key ++ EQUALS :: value) ++ ws) with
            | Some kv => [kv]
            | None => []
            end).
    by rewrite Ha. }
  unfold file_of_text in Ho.
  rewrite (loader_folds_assignments w env _ Ho eq_refl);
    cbn [items]; rewrite Hitems; [done|].
  constructor; [|constructor]. unfold acceptable. simpl.
  rewrite Hn1, Hn2. by destruct key.
Qed.

Lemma one_line_file_sets_the_variable_witness :
  loaded (mock (file_of_text (lit "NVIDIA_API_KEY_KIMI" ++ EQUALS
                              :: lit "abc123" ++ [CR; LF])) sse_endpoint)
    {[ lit "NVIDIA_API_KEY_KIMI" := lit "inherited" ]}
  = State (<[lit "NVIDIA_API_KEY_KIMI" := lit "abc123"]>
             {[ lit "NVIDIA_API_KEY_KIMI" := lit "inherited" ]}) [].
Proof.
  apply (one_line_file_sets_the_variable
           (mock (file_of_text (lit "NVIDIA_API_KEY_KIMI" ++ EQUALS
                                :: lit "abc123" ++ [CR; LF])) sse_endpoint)
           {[ lit "NVIDIA_API_KEY_KIMI" := lit "inherited" ]}
           (lit "NVIDIA_API_KEY_KIMI") (lit "abc123") [CR; LF]).
  - reflexivity.
  - right. right. left. reflexivity.
  - discriminate.
  - intros c [= <-]. split; [reflexivity | discriminate].
  - intros c [= <-]. reflexivity.
  - reflexivity.
  - reflexivity.
  - reflexivity.
  - reflexivity.
  - reflexivity.
  - reflexivity.
  - reflexivity.
Defined.
